(** * musictheorpy.scales: scales, key signatures and scale degrees

    A shallow embedding of [musictheorpy/scales.py].  Python dictionaries are
    stdpp finite maps, tuples and lists are lists, exceptions are the error
    side of [result], and the instance under construction in
    [Scale.__init__] is an explicit attribute store threaded through a small
    state-and-exception monad. *)

From stdpp Require Import gmap strings list fin_maps.
From Stdlib Require Import ZArith Ascii.

Local Open Scope Z_scope.

(** ** Python exceptions and results *)

(** The exceptions that can leave the functions of [scales.py].
    [InvalidTonicError] and [InvalidDegreeError] are the module's own and
    carry their message; [KeyError] (dictionary miss), [IndexError]
    (sequence index out of range) and [AttributeError] (attribute read
    before it was assigned) are Python's built-in ones, modelled without the
    offending key.  [NoteError] stands for whatever [Note(name)] raises on a
    name it does not accept. *)
Inductive exn : Type :=
  | InvalidTonicError (msg : string)
  | InvalidDegreeError (msg : string)
  | KeyError
  | IndexError
  | AttributeError (attr : string)
  | NoteError (name : string).

Inductive result (A : Type) : Type :=
  | Ok (a : A)
  | Err (e : exn).
Arguments Ok {A} a.
Arguments Err {A} e.

#[global] Instance result_ret : MRet result := fun _ a => Ok a.
#[global] Instance result_bind : MBind result := fun _ _ f r =>
  match r with
  | Ok a => f a
  | Err e => Err e
  end.

Definition is_ok {A} (r : result A) : bool :=
  match r with Ok _ => true | Err _ => false end.

(** ** Python primitives *)

Module Py.

(** [d[k]] on a dictionary. *)
Definition getitem `{Countable K} {V} (d : gmap K V) (k : K) : result V :=
  match d !! k with
  | Some v => Ok v
  | None => Err KeyError
  end.

(** [t[i]] on a tuple or list, for a non-negative index. *)
Definition index {A} (t : list A) (i : nat) : result A :=
  match t !! i with
  | Some a => Ok a
  | None => Err IndexError
  end.

(** [sub in s] on strings. *)
Fixpoint str_in (sub s : string) : bool :=
  String.prefix sub s ||
  match s with
  | EmptyString => false
  | String _ s' => str_in sub s'
  end.

(** [x in l] on a list of strings. *)
Definition list_in (x : string) (l : list string) : bool :=
  bool_decide (x ∈ l).

(** The cut of [s] at its first space, if it has one. *)
Fixpoint cut_space (s : string) : option (string * string) :=
  match s with
  | EmptyString => None
  | String c s' =>
      if Ascii.eqb c " "%char then Some (EmptyString, s')
      else match cut_space s' with
           | Some (a, b) => Some (String c a, b)
           | None => None
           end
  end.

(** [s.split(' ', 1)]: at most one split, at the first space. *)
Definition split1 (s : string) : list string :=
  match cut_space s with
  | Some (a, b) => [a; b]
  | None => [s]
  end.

(** [l[:n]]. *)
Definition slice_to {A} (l : list A) (n : nat) : list A := take n l.

End Py.

(** ** The module's tables *)

Definition VALID_SCALE_NAMES : gmap string (list string) :=
  list_to_map
    [("MAJOR", ["A"; "B"; "C"; "D"; "E"; "F"; "G";
                "C#"; "F#";
                "Ab"; "Bb"; "Cb"; "Db"; "Eb"; "Gb"]);
     ("MINOR", ["A"; "B"; "C"; "D"; "E"; "F"; "G";
                "A#"; "D#"; "G#"; "C#"; "F#";
                "Ab"; "Eb"; "Bb"])].

Definition SHARPS : list string := ["F#"; "C#"; "G#"; "D#"; "A#"; "E#"; "B#"].
Definition FLATS : list string := ["Bb"; "Eb"; "Ab"; "Db"; "Gb"; "Cb"; "Fb"].

Definition KEY_SIGNATURE_NUMBERS : gmap string Z :=
  list_to_map
    [("C MAJOR", 0); ("G MAJOR", 1); ("D MAJOR", 2); ("A MAJOR", 3);
     ("E MAJOR", 4); ("B MAJOR", 5);
     ("F# MAJOR", 6); ("C# MAJOR", 7);
     ("F MAJOR", -1); ("Bb MAJOR", -2); ("Eb MAJOR", -3); ("Ab MAJOR", -4);
     ("Db MAJOR", -5);
     ("Gb MAJOR", -6); ("Cb MAJOR", -7);
     ("A MINOR", 0); ("E MINOR", 1); ("B MINOR", 2); ("F# MINOR", 3);
     ("C# MINOR", 4); ("G# MINOR", 5);
     ("D# MINOR", 6); ("A# MINOR", 7);
     ("D MINOR", -1); ("G MINOR", -2); ("C MINOR", -3); ("F MINOR", -4);
     ("Bb MINOR", -5);
     ("Eb MINOR", -6); ("Ab MINOR", -7)].

Definition KEY_SIGNATURES : gmap Z (list string) :=
  list_to_map
    [(0, []); (1, Py.slice_to SHARPS 1); (2, Py.slice_to SHARPS 2);
     (3, Py.slice_to SHARPS 3); (4, Py.slice_to SHARPS 4);
     (5, Py.slice_to SHARPS 5);
     (6, Py.slice_to SHARPS 6); (7, Py.slice_to SHARPS 7);
     (-1, Py.slice_to FLATS 1); (-2, Py.slice_to FLATS 2);
     (-3, Py.slice_to FLATS 3); (-4, Py.slice_to FLATS 4);
     (-5, Py.slice_to FLATS 5);
     (-6, Py.slice_to FLATS 6); (-7, Py.slice_to FLATS 7)].

(** ** Notes *)

(** Modelled from the spec: the [Note] value type of [musictheorpy.notes],
    which is not among the sources.  The spec gives a Note the identity
    (letter A-G, accidental among none, sharp, flat, double-sharp,
    double-flat), a constructor from a name, a display name, and equality by
    letter and accidental.  Names are spelled as in the module's tables: the
    letter followed by nothing, [#], [b], [##] or [bb]. *)
Inductive Letter : Type := LA | LB | LC | LD | LE | LF | LG.

Inductive Accidental : Type :=
  | Natural | Sharp | Flat | DoubleSharp | DoubleFlat.

Record Note : Type := mkNote { letter : Letter; accidental : Accidental }.

#[global] Instance Letter_eq_dec : EqDecision Letter.
Proof. solve_decision. Defined.
#[global] Instance Accidental_eq_dec : EqDecision Accidental.
Proof. solve_decision. Defined.
#[global] Instance Note_eq_dec : EqDecision Note.
Proof. solve_decision. Defined.

Definition all_letters : list Letter := [LA; LB; LC; LD; LE; LF; LG].
Definition all_accidentals : list Accidental :=
  [Natural; Sharp; Flat; DoubleSharp; DoubleFlat].

Definition letter_char (l : Letter) : ascii :=
  match l with
  | LA => "A" | LB => "B" | LC => "C" | LD => "D"
  | LE => "E" | LF => "F" | LG => "G"
  end%char.

Definition accidental_suffix (a : Accidental) : string :=
  match a with
  | Natural => EmptyString
  | Sharp => "#"
  | Flat => "b"
  | DoubleSharp => "##"
  | DoubleFlat => "bb"
  end.

Definition parse_letter (c : ascii) : option Letter :=
  List.find (fun l => Ascii.eqb (letter_char l) c) all_letters.

Definition parse_accidental (s : string) : option Accidental :=
  List.find (fun a => String.eqb (accidental_suffix a) s) all_accidentals.

(** [Note(name)]. *)
Definition Note_new (name : string) : result Note :=
  match name with
  | EmptyString => Err (NoteError name)
  | String c rest =>
      match parse_letter c, parse_accidental rest with
      | Some l, Some a => Ok (mkNote l a)
      | _, _ => Err (NoteError name)
      end
  end.

(** [note.qualified_name]. *)
Definition qualified_name (n : Note) : string :=
  String (letter_char (letter n)) (accidental_suffix (accidental n)).

(** [a == b] on Notes. *)
Definition Note_eq (a b : Note) : bool := bool_decide (a = b).

(** The letter a name starts with, if it starts with one. *)
Definition name_letter (name : string) : option Letter :=
  match name with
  | EmptyString => None
  | String c _ => parse_letter c
  end.

(** ** The functions of scales.py *)

(** [unpack_scale_name]: the dictionary with the keys [TONIC] and [QUALITY].
    [split_scale[1]] raises [IndexError] when the name has no space. *)
Definition unpack_scale_name (scale : string) : result (gmap string string) :=
  let split_scale := Py.split1 scale in
  tonic ← Py.index split_scale 0;
  quality ← Py.index split_scale 1;
  mret ({[ "TONIC" := tonic; "QUALITY" := quality ]} : gmap string string).

Definition invalid_tonic_message (tonic : string) : string :=
  "Invalid tonic: " +:+ tonic +:+
  ". It is possible that this tonic is a valid note name but that " +:+
  "building the desired scale from this note would result in a scale with an invalid " +:+
  "key signature.".

Definition validate_tonic (unpacked_scale_name : gmap string string)
  : result unit :=
  quality ← Py.getitem unpacked_scale_name "QUALITY";
  valid_tonics ←
    (if Py.str_in "MINOR" quality
     then Py.getitem VALID_SCALE_NAMES "MINOR"
     else Py.getitem VALID_SCALE_NAMES "MAJOR");
  tonic ← Py.getitem unpacked_scale_name "TONIC";
  if negb (Py.list_in tonic valid_tonics)
  then tonic' ← Py.getitem unpacked_scale_name "TONIC";
       Err (InvalidTonicError (invalid_tonic_message tonic'))
  else mret ().

Definition fetch_key_signature (tonic quality : string)
  : result (list string) :=
  let qualified_tonic :=
    tonic +:+ (if Py.str_in "MINOR" quality then " MINOR" else " MAJOR") in
  key_signature_number ← Py.getitem KEY_SIGNATURE_NUMBERS qualified_tonic;
  Py.getitem KEY_SIGNATURES key_signature_number.

(** ** Scale objects *)

(** The attributes of a [Scale] instance.  An attribute is [None] until
    [__init__] has assigned it. *)
Record Scale : Type := mkScale {
  _tonic : option string;
  _quality : option string;
  _notes : option (list Note);
  key_signature : option (list string)
}.

(** The instance as [__init__] receives it: no attribute set. *)
Definition Scale_blank : Scale := mkScale None None None None.

(** A method body: it runs on [self], may assign attributes, and returns or
    raises.  The instance is returned in both cases, as it is when the
    exception leaves the method. *)
Definition method (A : Type) : Type := Scale → Scale * result A.

#[global] Instance method_ret : MRet method := fun _ a self => (self, Ok a).
#[global] Instance method_bind : MBind method := fun _ _ f m self =>
  match m self with
  | (self', Ok a) => f a self'
  | (self', Err e) => (self', Err e)
  end.

(** A call of a function of the module from a method body. *)
Definition call {A} (r : result A) : method A := fun self => (self, r).

Definition raise {A} (e : exn) : method A := fun self => (self, Err e).

(** [self.attr] read. *)
Definition getattr {A} (attr : string) (field : Scale → option A)
  : method A := fun self =>
  match field self with
  | Some v => (self, Ok v)
  | None => (self, Err (AttributeError attr))
  end.

(** [self.attr = v]. *)
Definition set_tonic (v : string) : method unit := fun self =>
  (mkScale (Some v) (_quality self) (_notes self) (key_signature self), Ok ()).
Definition set_quality (v : string) : method unit := fun self =>
  (mkScale (_tonic self) (Some v) (_notes self) (key_signature self), Ok ()).
Definition set_notes (v : list Note) : method unit := fun self =>
  (mkScale (_tonic self) (_quality self) (Some v) (key_signature self), Ok ()).
Definition set_key_signature (v : list string) : method unit := fun self =>
  (mkScale (_tonic self) (_quality self) (_notes self) (Some v), Ok ()).

(** [try: body except KeyError: handler]. *)
Definition try_except_KeyError {A} (body handler : method A) : method A :=
  fun self =>
  match body self with
  | (self', Err KeyError) => handler self'
  | r => r
  end.

(** The dictionary local to [__getitem__]. *)
Definition degree_names : gmap string nat :=
  list_to_map
    [("TONIC", 0); ("SUPERTONIC", 1); ("MEDIANT", 2); ("SUBDOMINANT", 3);
     ("DOMINANT", 4); ("SUBMEDIANT", 5); ("LEADING TONE", 6)]%nat.

Definition Scale__getitem__ (degree : string) : method Note :=
  quality ← getattr "_quality" _quality;
  if negb (String.eqb quality "MAJOR") && negb (Py.str_in "MINOR" quality)
  then raise (InvalidDegreeError "Only major and minor scales are subscriptable")
  else
    try_except_KeyError
      (degree_number ← call (Py.getitem degree_names degree);
       notes ← getattr "_notes" _notes;
       call (Py.index notes degree_number))
      (raise (InvalidDegreeError ("Invalid degree name: " +:+ degree))).

(** [note in self._notes]: the argument is, or equals, some element. *)
Definition Scale__contains__ (note : Note) : method bool :=
  notes ← getattr "_notes" _notes;
  mret (existsb (fun e => Note_eq note e) notes).

Definition ascend : method (list string) :=
  notes ← getattr "_notes" _notes;
  mret (qualified_name <$> notes).

(** The interval tables of [musictheorpy.interval_utils] are not among the
    sources: [build_scale] and the constructor take them as parameters.
    [SCALE_INTERVALS] maps a quality to its interval pattern and
    [INTERVAL_NOTE_PAIRS] maps a tonic to the note name at each interval. *)
Section tables.

Context {Interval : Type} `{Countable Interval}.
Variable SCALE_INTERVALS : gmap string (list Interval).
Variable INTERVAL_NOTE_PAIRS : gmap string (gmap Interval string).

Definition build_scale (tonic quality : string) : result (list Note) :=
  scale_intervals ← Py.getitem SCALE_INTERVALS quality;
  scale_note_names ←
    mapM (fun interval =>
            row ← Py.getitem INTERVAL_NOTE_PAIRS tonic;
            Py.getitem row interval)
         scale_intervals;
  mapM Note_new scale_note_names.

Definition Scale__init__ (scale_name : string) : method unit :=
  unpacked_scale_name ← call (unpack_scale_name scale_name);
  _ ← call (validate_tonic unpacked_scale_name);
  tonic ← call (Py.getitem unpacked_scale_name "TONIC");
  _ ← set_tonic tonic;
  quality ← call (Py.getitem unpacked_scale_name "QUALITY");
  _ ← set_quality quality;
  tonic ← getattr "_tonic" _tonic;
  quality ← getattr "_quality" _quality;
  notes ← call (build_scale tonic quality);
  _ ← set_notes notes;
  tonic ← getattr "_tonic" _tonic;
  quality ← getattr "_quality" _quality;
  key_signature ← call (fetch_key_signature tonic quality);
  set_key_signature key_signature.

(** The call [Scale(scale_name)]: a blank instance is initialised, and
    handed to the caller only if [__init__] returns. *)
Definition Scale_new (scale_name : string) : result Scale :=
  match Scale__init__ scale_name Scale_blank with
  | (self, Ok _) => Ok self
  | (_, Err e) => Err e
  end.

End tables.

(** ** A reference instance of the interval tables *)

(** An instance of the two tables that [build_scale] takes as parameters,
    with intervals named by quality and number and every note spelled on the
    letter the interval's number asks for.  The theorems below hold for any
    tables; this instance is the one they are run on. *)
Module Reference.

(** Position of a letter in the octave that starts on C, and the pitch of
    the natural note in semitones above C. *)
Definition letter_index (l : Letter) : nat :=
  match l with
  | LC => 0 | LD => 1 | LE => 2 | LF => 3 | LG => 4 | LA => 5 | LB => 6
  end%nat.

Definition letter_pitch (l : Letter) : Z :=
  match l with
  | LC => 0 | LD => 2 | LE => 4 | LF => 5 | LG => 7 | LA => 9 | LB => 11
  end.

Definition letters_from_C : list Letter := [LC; LD; LE; LF; LG; LA; LB].

Definition accidental_offset (a : Accidental) : Z :=
  match a with
  | Natural => 0 | Sharp => 1 | Flat => -1
  | DoubleSharp => 2 | DoubleFlat => -2
  end.

Definition accidental_of_offset (z : Z) : option Accidental :=
  List.find (fun a => accidental_offset a =? z) all_accidentals.

(** The note [steps] letters and [semitones] semitones above [tonic], when
    it needs no more than a double accidental. *)
Definition spell (tonic : Note) (steps : nat) (semitones : Z)
  : option Note :=
  l ← letters_from_C !! ((letter_index (letter tonic) + steps) mod 7)%nat;
  let natural := (letter_pitch l - letter_pitch (letter tonic)) `mod` 12 in
  let off := accidental_offset (accidental tonic) + semitones - natural in
  a ← accidental_of_offset ((off + 6) `mod` 12 - 6);
  Some (mkNote l a).

(** Interval names with their number of letter steps and semitones. *)
Definition intervals : list (string * (nat * Z)) :=
  [("PERFECT 1", (0%nat, 0)); ("MAJOR 2", (1%nat, 2));
   ("MINOR 3", (2%nat, 3)); ("MAJOR 3", (2%nat, 4));
   ("PERFECT 4", (3%nat, 5)); ("PERFECT 5", (4%nat, 7));
   ("MINOR 6", (5%nat, 8)); ("MAJOR 6", (5%nat, 9));
   ("MINOR 7", (6%nat, 10)); ("MAJOR 7", (6%nat, 11))].

Definition tonic_names : list string :=
  l ← all_letters; a ← [Natural; Sharp; Flat]; [qualified_name (mkNote l a)].

Definition row (tonic : Note) : gmap string string :=
  list_to_map
    (omap (fun '(name, (steps, semitones)) =>
             n ← spell tonic steps semitones; Some (name, qualified_name n))
          intervals).

Definition INTERVAL_NOTE_PAIRS : gmap string (gmap string string) :=
  list_to_map
    (omap (fun t => match Note_new t with
                    | Ok n => Some (t, row n)
                    | Err _ => None
                    end)
          tonic_names).

Definition SCALE_INTERVALS : gmap string (list string) :=
  list_to_map
    [("MAJOR", ["PERFECT 1"; "MAJOR 2"; "MAJOR 3"; "PERFECT 4";
                "PERFECT 5"; "MAJOR 6"; "MAJOR 7"]);
     ("NATURAL MINOR", ["PERFECT 1"; "MAJOR 2"; "MINOR 3"; "PERFECT 4";
                        "PERFECT 5"; "MINOR 6"; "MINOR 7"]);
     ("HARMONIC MINOR", ["PERFECT 1"; "MAJOR 2"; "MINOR 3"; "PERFECT 4";
                         "PERFECT 5"; "MINOR 6"; "MAJOR 7"]);
     ("MELODIC MINOR", ["PERFECT 1"; "MAJOR 2"; "MINOR 3"; "PERFECT 4";
                        "PERFECT 5"; "MAJOR 6"; "MAJOR 7"])].

(** [Scale(scale_name)] over the reference tables. *)
Definition Scale (scale_name : string) : result Scale :=
  Scale_new SCALE_INTERVALS INTERVAL_NOTE_PAIRS scale_name.

End Reference.

(** ** Vocabulary of the statements *)

(** The legal-tonic list [validate_tonic] selects for a quality. *)
Definition legal_tonics (quality : string) : list string :=
  default []
    (VALID_SCALE_NAMES !! (if Py.str_in "MINOR" quality then "MINOR" else "MAJOR")).

Definition major_tonics : list string := legal_tonics "MAJOR".
Definition minor_tonics : list string := legal_tonics "MINOR".

(** The minor qualities the class docstring lists. *)
Definition minor_qualities : list string :=
  ["NATURAL MINOR"; "HARMONIC MINOR"; "MELODIC MINOR"].

(** The scale name [build_scale]'s caller splits into [tonic] and [quality]. *)
Definition scale_name (tonic quality : string) : string :=
  tonic +:+ " " +:+ quality.

(** What [build_scale] needs of the tables for one tonic and quality: the
    quality has a pattern of seven intervals, the tonic's row resolves each
    of them to a name [Note] accepts, and the first resolves to the tonic. *)
Definition pattern_resolves `{Countable Interval}
    (SCALE_INTERVALS : gmap string (list Interval))
    (INTERVAL_NOTE_PAIRS : gmap string (gmap Interval string))
    (tonic quality : string) : bool :=
  match SCALE_INTERVALS !! quality, INTERVAL_NOTE_PAIRS !! tonic with
  | Some pattern, Some row =>
      bool_decide (length pattern = 7%nat)
      && forallb (fun interval =>
                    match row !! interval with
                    | Some name => is_ok (Note_new name)
                    | None => false
                    end) pattern
      && match head pattern with
         | Some unison => bool_decide (row !! unison = Some tonic)
         | None => false
         end
  | _, _ => false
  end.

(** The tables resolve every legal major tonic under MAJOR and every legal
    minor tonic under the three minor qualities. *)
Definition tables_cover `{Countable Interval}
    (SCALE_INTERVALS : gmap string (list Interval))
    (INTERVAL_NOTE_PAIRS : gmap string (gmap Interval string)) : bool :=
  forallb (fun tonic =>
             pattern_resolves SCALE_INTERVALS INTERVAL_NOTE_PAIRS tonic "MAJOR")
          major_tonics
  && forallb (fun tonic =>
                forallb (pattern_resolves SCALE_INTERVALS INTERVAL_NOTE_PAIRS tonic)
                        minor_qualities)
             minor_tonics.

(** Whether a Scale is C major or A natural minor. *)
Definition is_C_major_or_A_natural_minor (self : Scale) : bool :=
  bool_decide ((_tonic self, _quality self)
               ∈ [(Some "C", Some "MAJOR"); (Some "A", Some "NATURAL MINOR")]).

(** The instance after each stage of [__init__]. *)
Definition Scale_named (tonic quality : string) : Scale :=
  mkScale (Some tonic) (Some quality) None None.
Definition Scale_built (tonic quality : string) (notes : list Note)
    (key_signature : list string) : Scale :=
  mkScale (Some tonic) (Some quality) (Some notes) (Some key_signature).

(** What a run of [__init__] leaves of an instance [old] it started on: the
    attributes the run assigned, as [run] has them, over those of [old]. *)
Definition Scale_overlay (run old : Scale) : Scale :=
  mkScale (from_option Some (_tonic old) (_tonic run))
          (from_option Some (_quality old) (_quality run))
          (from_option Some (_notes old) (_notes run))
          (from_option Some (key_signature old) (key_signature run)).

(** The reference patterns with a five-interval pattern added, under a
    quality that contains MINOR. *)
Definition pentatonic_SCALE_INTERVALS : gmap string (list string) :=
  <["MINOR PENTATONIC" :=
      ["PERFECT 1"; "MINOR 3"; "PERFECT 4"; "PERFECT 5"; "MINOR 7"]]>
    Reference.SCALE_INTERVALS.

(** The names of the notes of a scale that carry an accidental, and whether
    a scale is spelled without double accidentals over the reference
    tables. *)
Definition altered_names (notes : list Note) : list string :=
  qualified_name <$> filter (fun n => accidental n ≠ Natural) notes.

Definition has_double_accidental (n : Note) : bool :=
  match accidental n with
  | DoubleSharp | DoubleFlat => true
  | _ => false
  end.

Definition plainly_spelled (tonic quality : string) : bool :=
  match build_scale Reference.SCALE_INTERVALS Reference.INTERVAL_NOTE_PAIRS
          tonic quality with
  | Ok notes => forallb (fun n => negb (has_double_accidental n)) notes
  | Err _ => false
  end.

(** * Properties *)

(** ** Strings *)

Lemma append_cons c (a b : string) : String c a +:+ b = String c (a +:+ b).
Proof. reflexivity. Qed.

Lemma prefix_space c s : String.prefix " " (String c s) = Ascii.eqb c " ".
Proof.
  cbn [String.prefix]. destruct (Ascii.ascii_dec " " c) as [<-|Hne].
  - by destruct s.
  - symmetry. apply Ascii.eqb_neq. congruence.
Qed.

Lemma str_in_space_cons c s :
  Py.str_in " " (String c s) = Ascii.eqb c " " || Py.str_in " " s.
Proof. cbn [Py.str_in]. by rewrite prefix_space. Qed.

Lemma cut_space_join t q :
  Py.str_in " " t = false → Py.cut_space (scale_name t q) = Some (t, q).
Proof.
  unfold scale_name. induction t as [|c t IH]; intros Hns.
  - reflexivity.
  - rewrite str_in_space_cons in Hns. apply orb_false_elim in Hns as [Hc Ht].
    rewrite append_cons. cbn [Py.cut_space]. rewrite Hc.
    by rewrite (IH Ht).
Qed.

Lemma cut_space_None s : Py.cut_space s = None → Py.str_in " " s = false.
Proof.
  induction s as [|c s IH]; [done|].
  cbn [Py.cut_space]. rewrite str_in_space_cons.
  destruct (Ascii.eqb c " "); [done|].
  destruct (Py.cut_space s) as [[a b]|]; [done|]. intros _. by rewrite IH.
Qed.

Lemma cut_space_Some s a b :
  Py.cut_space s = Some (a, b) →
  s = scale_name a b ∧ Py.str_in " " a = false.
Proof.
  unfold scale_name. revert a. induction s as [|c s IH]; intros a; [done|].
  cbn [Py.cut_space]. destruct (Ascii.eqb c " ") eqn:Hc.
  - apply Ascii.eqb_eq in Hc as ->. intros [= <- <-]. done.
  - destruct (Py.cut_space s) as [[a' b']|]; [|done].
    intros [= <- <-]. destruct (IH a' eq_refl) as [-> Ha'].
    split; [done|]. by rewrite str_in_space_cons, Hc.
Qed.

Lemma prefix_app (p s : string) : String.prefix p (p +:+ s) = true.
Proof.
  induction p as [|c p IH]; [by destruct s|].
  rewrite append_cons. cbn [String.prefix].
  by destruct (Ascii.ascii_dec c c).
Qed.

Lemma str_in_app (a p s : string) : Py.str_in p (a +:+ p +:+ s) = true.
Proof.
  induction a as [|c a IH].
  - change (EmptyString +:+ p +:+ s) with (p +:+ s).
    destruct (p +:+ s) eqn:E; cbn [Py.str_in]; rewrite <- E, prefix_app; done.
  - rewrite append_cons. cbn [Py.str_in]. rewrite IH. apply orb_true_r.
Qed.

Example split1_scale_name :
  Py.split1 "F# HARMONIC MINOR" = ["F#"; "HARMONIC MINOR"]
  ∧ Py.split1 "CMAJOR" = ["CMAJOR"]
  ∧ Py.split1 " A B" = [EmptyString; "A B"].
Proof. by vm_compute. Qed.

Example str_in_MINOR :
  Py.str_in "MINOR" "HARMONIC MINOR" = true
  ∧ Py.str_in "MINOR" "MAJOR" = false
  ∧ Py.str_in "MINOR" "minor" = false.
Proof. by vm_compute. Qed.

(** ** The legal-tonic lists *)

Lemma major_tonics_eq :
  major_tonics = ["A"; "B"; "C"; "D"; "E"; "F"; "G"; "C#"; "F#";
                  "Ab"; "Bb"; "Cb"; "Db"; "Eb"; "Gb"].
Proof. by vm_compute. Qed.

Lemma minor_tonics_eq :
  minor_tonics = ["A"; "B"; "C"; "D"; "E"; "F"; "G";
                  "A#"; "D#"; "G#"; "C#"; "F#"; "Ab"; "Eb"; "Bb"].
Proof. by vm_compute. Qed.

Lemma legal_tonics_minor q :
  Py.str_in "MINOR" q = true → legal_tonics q = minor_tonics.
Proof. unfold legal_tonics. by intros ->. Qed.

Lemma legal_tonics_major q :
  Py.str_in "MINOR" q = false → legal_tonics q = major_tonics.
Proof. unfold legal_tonics. by intros ->. Qed.

Lemma valid_tonics_getitem q :
  (if Py.str_in "MINOR" q
   then Py.getitem VALID_SCALE_NAMES "MINOR"
   else Py.getitem VALID_SCALE_NAMES "MAJOR") = Ok (legal_tonics q).
Proof. unfold legal_tonics. by destruct (Py.str_in "MINOR" q); vm_compute. Qed.

(** Case analysis on a tonic known to be in a legal-tonic list. *)
Ltac tonic_cases H :=
  first [ rewrite major_tonics_eq in H | rewrite minor_tonics_eq in H ];
  repeat (apply elem_of_cons in H as [->|H]);
  [ .. | by apply elem_of_nil in H ].

Lemma list_in_true x l : Py.list_in x l = true ↔ x ∈ l.
Proof. unfold Py.list_in. apply bool_decide_eq_true. Qed.

Lemma list_in_false x l : Py.list_in x l = false ↔ x ∉ l.
Proof. unfold Py.list_in. apply bool_decide_eq_false. Qed.

Lemma legal_tonics_cases t q :
  t ∈ legal_tonics q →
  (Py.str_in "MINOR" q = false ∧ t ∈ major_tonics)
  ∨ (Py.str_in "MINOR" q = true ∧ t ∈ minor_tonics).
Proof.
  intros Ht. destruct (Py.str_in "MINOR" q) eqn:Hq.
  - right. by rewrite <- (legal_tonics_minor q).
  - left. by rewrite <- (legal_tonics_major q).
Qed.

Lemma legal_tonic_no_space t q :
  t ∈ legal_tonics q → Py.str_in " " t = false.
Proof.
  intros Ht. destruct (legal_tonics_cases t q Ht) as [[_ H]|[_ H]];
    tonic_cases H; by vm_compute.
Qed.

(** ** Unpacking and validation *)

Lemma unpack_scale_name_join t q :
  Py.str_in " " t = false →
  unpack_scale_name (scale_name t q)
  = Ok ({[ "TONIC" := t; "QUALITY" := q ]} : gmap string string).
Proof.
  intros Hns. unfold unpack_scale_name, Py.split1.
  by rewrite (cut_space_join t q Hns).
Qed.

Lemma unpack_scale_name_no_space s :
  Py.cut_space s = None → unpack_scale_name s = Err IndexError.
Proof. intros Hs. unfold unpack_scale_name, Py.split1. by rewrite Hs. Qed.

Lemma unpacked_TONIC (t q : string) :
  Py.getitem ({[ "TONIC" := t; "QUALITY" := q ]} : gmap string string) "TONIC"
  = Ok t.
Proof. unfold Py.getitem. by rewrite lookup_insert_eq. Qed.

Lemma unpacked_QUALITY (t q : string) :
  Py.getitem ({[ "TONIC" := t; "QUALITY" := q ]} : gmap string string) "QUALITY"
  = Ok q.
Proof.
  unfold Py.getitem. rewrite lookup_insert_ne by done.
  by rewrite lookup_singleton_eq.
Qed.

Lemma validate_tonic_unpacked t q :
  validate_tonic {[ "TONIC" := t; "QUALITY" := q ]}
  = if Py.list_in t (legal_tonics q) then Ok ()
    else Err (InvalidTonicError (invalid_tonic_message t)).
Proof.
  unfold validate_tonic. rewrite unpacked_QUALITY, unpacked_TONIC.
  cbn [mbind result_bind]. rewrite valid_tonics_getitem.
  cbn [mbind result_bind]. by destruct (Py.list_in t (legal_tonics q)).
Qed.

(** ** Key signatures *)

Lemma fetch_key_signature_class t q q' :
  Py.str_in "MINOR" q = Py.str_in "MINOR" q' →
  fetch_key_signature t q = fetch_key_signature t q'.
Proof. unfold fetch_key_signature. by intros ->. Qed.

Lemma fetch_key_signature_minor t q :
  Py.str_in "MINOR" q = true →
  fetch_key_signature t q = fetch_key_signature t "MINOR".
Proof. intros Hq. apply fetch_key_signature_class. by rewrite Hq. Qed.

Lemma fetch_key_signature_major t q :
  Py.str_in "MINOR" q = false →
  fetch_key_signature t q = fetch_key_signature t "MAJOR".
Proof. intros Hq. apply fetch_key_signature_class. by rewrite Hq. Qed.

(** On the legal major tonics the lookup succeeds, and the signature is
    empty for C only. *)
Lemma fetch_key_signature_major_tonics t :
  t ∈ major_tonics →
  ∃ ks, fetch_key_signature t "MAJOR" = Ok ks ∧ (ks = [] ↔ t = "C").
Proof.
  intros Ht. tonic_cases Ht;
    (eexists; split; [by vm_compute | split; intros [=]; done]).
Qed.

(** On the legal minor tonics the lookup succeeds, and the signature is
    empty for A only. *)
Lemma fetch_key_signature_minor_tonics t :
  t ∈ minor_tonics →
  ∃ ks, fetch_key_signature t "MINOR" = Ok ks ∧ (ks = [] ↔ t = "A").
Proof.
  intros Ht. tonic_cases Ht;
    (eexists; split; [by vm_compute | split; intros [=]; done]).
Qed.

(** After validation the key-signature lookup cannot miss. *)
Lemma fetch_key_signature_legal t q :
  t ∈ legal_tonics q → ∃ ks, fetch_key_signature t q = Ok ks.
Proof.
  intros Ht. destruct (legal_tonics_cases t q Ht) as [[Hq H]|[Hq H]].
  - rewrite (fetch_key_signature_major t q Hq).
    destruct (fetch_key_signature_major_tonics t H) as (ks & -> & _); eauto.
  - rewrite (fetch_key_signature_minor t q Hq).
    destruct (fetch_key_signature_minor_tonics t H) as (ks & -> & _); eauto.
Qed.

(** ** The constructor *)

Section constructor.

Context {Interval : Type} `{Countable Interval}.
Variable SCALE_INTERVALS : gmap string (list Interval).
Variable INTERVAL_NOTE_PAIRS : gmap string (gmap Interval string).

Local Abbreviation build :=
  (build_scale SCALE_INTERVALS INTERVAL_NOTE_PAIRS).
Local Abbreviation init :=
  (Scale__init__ SCALE_INTERVALS INTERVAL_NOTE_PAIRS).
Local Abbreviation new :=
  (Scale_new SCALE_INTERVALS INTERVAL_NOTE_PAIRS).

(** [__init__] on a name with a space, stage by stage. *)
Lemma Scale__init__join t q :
  Py.str_in " " t = false →
  init (scale_name t q) Scale_blank
  = if Py.list_in t (legal_tonics q) then
      match build t q with
      | Err e => (Scale_named t q, Err e)
      | Ok ns =>
          match fetch_key_signature t q with
          | Err e => (mkScale (Some t) (Some q) (Some ns) None, Err e)
          | Ok ks => (Scale_built t q ns ks, Ok ())
          end
      end
    else (Scale_blank, Err (InvalidTonicError (invalid_tonic_message t))).
Proof.
  intros Hns.
  cbv beta iota delta [Scale__init__ mbind method_bind call].
  rewrite (unpack_scale_name_join t q Hns), validate_tonic_unpacked.
  destruct (Py.list_in t (legal_tonics q)); [|done].
  rewrite unpacked_TONIC, unpacked_QUALITY.
  cbv beta iota delta [set_tonic set_quality set_notes set_key_signature
                       getattr _tonic _quality _notes key_signature
                       Scale_blank].
  destruct (build t q) as [ns|e]; [|done].
  by destruct (fetch_key_signature t q).
Qed.

(** [__init__] on a name without a space. *)
Lemma Scale__init__no_space s :
  Py.cut_space s = None →
  init s Scale_blank = (Scale_blank, Err IndexError).
Proof.
  intros Hs.
  cbv beta iota delta [Scale__init__ mbind method_bind call].
  by rewrite (unpack_scale_name_no_space s Hs).
Qed.

(** Every name is of one of the two kinds. *)
Lemma scale_name_cases s :
  Py.cut_space s = None
  ∨ ∃ t q, s = scale_name t q ∧ Py.str_in " " t = false.
Proof.
  destruct (Py.cut_space s) as [[t q]|] eqn:Hs; [right|by left].
  exists t, q. by apply cut_space_Some.
Qed.

Lemma Scale_new_join t q :
  Py.str_in " " t = false →
  new (scale_name t q)
  = if Py.list_in t (legal_tonics q) then
      ns ← build t q;
      ks ← fetch_key_signature t q;
      Ok (Scale_built t q ns ks)
    else Err (InvalidTonicError (invalid_tonic_message t)).
Proof.
  intros Hns. unfold Scale_new. rewrite (Scale__init__join t q Hns).
  destruct (Py.list_in t (legal_tonics q)); [|done].
  destruct (build t q) as [ns|e]; [|done].
  cbn [mbind result_bind]. by destruct (fetch_key_signature t q).
Qed.

(** What a constructed Scale is made of. *)
Lemma Scale_new_Ok s self :
  new s = Ok self →
  ∃ t q ns ks,
    s = scale_name t q ∧ t ∈ legal_tonics q
    ∧ build t q = Ok ns ∧ fetch_key_signature t q = Ok ks
    ∧ self = Scale_built t q ns ks.
Proof.
  destruct (scale_name_cases s) as [Hs|(t & q & -> & Hns)].
  - unfold Scale_new. by rewrite (Scale__init__no_space s Hs).
  - rewrite (Scale_new_join t q Hns).
    destruct (Py.list_in t (legal_tonics q)) eqn:Ht; [|done].
    apply list_in_true in Ht.
    destruct (build t q) as [ns|e] eqn:Hb; [|done].
    cbn [mbind result_bind].
    destruct (fetch_key_signature t q) as [ks|e] eqn:Hk; [|done].
    intros [= <-]. by exists t, q, ns, ks.
Qed.

End constructor.

(** ** Validation of the tonic *)

(** C1. The constructor, on a name [<TONIC> <QUALITY>], checks the tonic
    against the minor list when the quality contains MINOR and against the
    major list otherwise.  A tonic outside the applicable list makes
    [validate_tonic] and the constructor raise [InvalidTonicError] with a
    message that contains the tonic; a tonic inside it passes validation.
    G# is outside the list for MAJOR and inside the list for the minor
    qualities. *)
Theorem validate_tonic_by_quality `{Countable Interval}
    (SCALE_INTERVALS : gmap string (list Interval))
    (INTERVAL_NOTE_PAIRS : gmap string (gmap Interval string))
    (tonic quality : string) :
  Py.str_in " " tonic = false →
  let unpacked : gmap string string :=
    {[ "TONIC" := tonic; "QUALITY" := quality ]} in
  unpack_scale_name (scale_name tonic quality) = Ok unpacked
  ∧ legal_tonics quality
    = (if Py.str_in "MINOR" quality then minor_tonics else major_tonics)
  ∧ (tonic ∉ legal_tonics quality →
       validate_tonic unpacked
       = Err (InvalidTonicError (invalid_tonic_message tonic))
       ∧ Scale_new SCALE_INTERVALS INTERVAL_NOTE_PAIRS
           (scale_name tonic quality)
         = Err (InvalidTonicError (invalid_tonic_message tonic))
       ∧ Py.str_in tonic (invalid_tonic_message tonic) = true)
  ∧ (tonic ∈ legal_tonics quality → validate_tonic unpacked = Ok ())
  ∧ ("G#" ∉ legal_tonics "MAJOR")
  ∧ (∀ q, q ∈ ("MINOR" :: minor_qualities) → "G#" ∈ legal_tonics q).
Proof.
  intros Hns unpacked. subst unpacked.
  split; [by apply unpack_scale_name_join|].
  split.
  { destruct (Py.str_in "MINOR" quality) eqn:Hq.
    - by apply legal_tonics_minor.
    - by apply legal_tonics_major. }
  split.
  { intros Hbad. apply list_in_false in Hbad.
    rewrite validate_tonic_unpacked, (Scale_new_join _ _ _ _ Hns), Hbad.
    split; [done|]. split; [done|]. apply str_in_app. }
  split.
  { intros Hgood. apply list_in_true in Hgood.
    by rewrite validate_tonic_unpacked, Hgood. }
  split.
  { apply list_in_false. by vm_compute. }
  intros q Hq. apply list_in_true.
  repeat (apply elem_of_cons in Hq as [->|Hq]); try by vm_compute.
  by apply elem_of_nil in Hq.
Qed.

Lemma validate_tonic_by_quality_witness :
  Py.str_in " " "G#" = false
  ∧ Reference.Scale "G# MAJOR"
    = Err (InvalidTonicError (invalid_tonic_message "G#")).
Proof.
  assert (Hns : Py.str_in " " "G#" = false) by (by vm_compute).
  split; [exact Hns|].
  destruct (validate_tonic_by_quality Reference.SCALE_INTERVALS
              Reference.INTERVAL_NOTE_PAIRS "G#" "MAJOR" Hns)
    as (_ & _ & Hbad & _ & HG & _).
  exact (proj1 (proj2 (Hbad HG))).
Defined.

(** ** Building the notes *)

Lemma getitem_Some `{Countable K} {V} (d : gmap K V) k v :
  d !! k = Some v → Py.getitem d k = Ok v.
Proof. unfold Py.getitem. by intros ->. Qed.

Lemma getitem_None `{Countable K} {V} (d : gmap K V) k :
  d !! k = None → Py.getitem d k = Err KeyError.
Proof. unfold Py.getitem. by intros ->. Qed.

Lemma mapM_result_Ok {A B} (f : A → result B) (l : list A) :
  Forall (fun x => is_ok (f x) = true) l →
  ∃ ys, mapM f l = Ok ys ∧ Forall2 (fun x y => f x = Ok y) l ys.
Proof.
  induction 1 as [|x l Hx _ (ys & IH & Hys)].
  - by exists [].
  - destruct (f x) as [y|e] eqn:Hfx; [|done].
    exists (y :: ys). cbn [mapM]. rewrite Hfx, IH. split; [done|].
    by constructor.
Qed.

Lemma mapM_result_length {A B} (f : A → result B) (l : list A) ys :
  mapM f l = Ok ys → length ys = length l.
Proof.
  revert ys. induction l as [|x l IH]; intros ys.
  - by intros [= <-].
  - cbn [mapM]. destruct (f x) as [y|e]; [|done]. cbn [mbind result_bind].
    destruct (mapM f l) as [ys'|e]; [|done]. cbn [mbind result_bind].
    intros [= <-]. cbn [length]. by rewrite (IH ys').
Qed.

Lemma Note_new_letter name n :
  Note_new name = Ok n → name_letter name = Some (letter n).
Proof.
  destruct name as [|c rest]; [done|]. cbn [Note_new name_letter].
  destruct (parse_letter c) as [l|]; [|done].
  destruct (parse_accidental rest) as [a|]; [|done].
  by intros [= <-].
Qed.

Section build.

Context {Interval : Type} `{Countable Interval}.
Variable SCALE_INTERVALS : gmap string (list Interval).
Variable INTERVAL_NOTE_PAIRS : gmap string (gmap Interval string).

Local Abbreviation build :=
  (build_scale SCALE_INTERVALS INTERVAL_NOTE_PAIRS).

(** A quality the pattern table does not know stops [build_scale] at its
    first lookup. *)
Lemma build_scale_unknown_quality t q :
  SCALE_INTERVALS !! q = None → build t q = Err KeyError.
Proof.
  intros Hq. unfold build_scale. by rewrite (getitem_None _ _ Hq).
Qed.

(** The notes are as many as the intervals of the quality's pattern. *)
Lemma build_scale_length t q ns :
  build t q = Ok ns →
  ∃ pattern, SCALE_INTERVALS !! q = Some pattern
             ∧ length ns = length pattern.
Proof.
  unfold build_scale.
  destruct (SCALE_INTERVALS !! q) as [pattern|] eqn:Hq;
    [rewrite (getitem_Some _ _ _ Hq)|rewrite (getitem_None _ _ Hq)];
    cbn [mbind result_bind]; [|done].
  destruct (mapM _ pattern) as [names|e] eqn:Hnames;
    cbn [mbind result_bind]; [|done].
  intros Hns. exists pattern. split; [done|].
  by rewrite (mapM_result_length _ _ _ Hns), (mapM_result_length _ _ _ Hnames).
Qed.

(** Tables that resolve the pattern give seven notes, the first of which
    is the Note of the tonic's own name. *)
Lemma build_scale_resolves t q :
  pattern_resolves SCALE_INTERVALS INTERVAL_NOTE_PAIRS t q = true →
  ∃ ns n0, build t q = Ok ns ∧ length ns = 7%nat
           ∧ ns !! 0%nat = Some n0 ∧ Note_new t = Ok n0.
Proof.
  unfold pattern_resolves, build_scale.
  destruct (SCALE_INTERVALS !! q) as [pattern|] eqn:Hq; [|done].
  destruct (INTERVAL_NOTE_PAIRS !! t) as [row|] eqn:Hrow; [|done].
  intros [[Hlen Hall]%andb_true_iff Hhead]%andb_true_iff.
  apply bool_decide_eq_true in Hlen. rewrite forallb_forall in Hall.
  rewrite (getitem_Some _ _ _ Hq). cbn [mbind result_bind].
  set (resolve := fun interval : Interval =>
         Py.getitem INTERVAL_NOTE_PAIRS t ≫= fun row => Py.getitem row interval).
  assert (Hres : ∀ interval, resolve interval = Py.getitem row interval).
  { intros interval. unfold resolve. by rewrite (getitem_Some _ _ _ Hrow). }
  destruct (mapM_result_Ok resolve pattern) as (names & Hnames & Hrel).
  { apply Forall_forall. intros interval Hin%list_elem_of_In.
    specialize (Hall interval Hin). rewrite Hres. unfold Py.getitem.
    by destruct (row !! interval). }
  rewrite Hnames. cbn [mbind result_bind].
  destruct (mapM_result_Ok Note_new names) as (ns & Hns & Hrel').
  { apply Forall_forall. intros name Hname.
    apply list_elem_of_lookup in Hname as [i Hi].
    destruct (Forall2_lookup_r _ _ _ _ _ Hrel Hi) as (interval & Hpi & Hrn).
    assert (Hin : In interval pattern).
    { apply list_elem_of_In, list_elem_of_lookup. eauto. }
    specialize (Hall interval Hin). rewrite Hres in Hrn.
    unfold Py.getitem in Hrn. destruct (row !! interval); [|done].
    by injection Hrn as ->. }
  rewrite Hns.
  assert (Hlen' : length ns = 7%nat).
  { by rewrite (mapM_result_length _ _ _ Hns), (mapM_result_length _ _ _ Hnames). }
  destruct pattern as [|unison pattern]; [done|].
  cbn [head] in Hhead. apply bool_decide_eq_true in Hhead.
  inversion Hrel as [|? name0 ? names' Hunison _]; subst.
  rewrite Hres in Hunison. unfold Py.getitem in Hunison.
  rewrite Hhead in Hunison. injection Hunison as <-.
  inversion Hrel' as [|? n0 ? ns' Hn0 _]; subst.
  by exists (n0 :: ns'), n0.
Qed.

End build.

Lemma tables_cover_resolves `{Countable Interval}
    (SCALE_INTERVALS : gmap string (list Interval))
    (INTERVAL_NOTE_PAIRS : gmap string (gmap Interval string)) t q :
  tables_cover SCALE_INTERVALS INTERVAL_NOTE_PAIRS = true →
  (q = "MAJOR" ∧ t ∈ major_tonics)
  ∨ (q ∈ minor_qualities ∧ t ∈ minor_tonics) →
  pattern_resolves SCALE_INTERVALS INTERVAL_NOTE_PAIRS t q = true
  ∧ t ∈ legal_tonics q.
Proof.
  intros [Hmaj Hmin]%andb_true_iff [[-> Ht]|[Hq Ht]].
  - rewrite forallb_forall in Hmaj. split; [|done].
    by apply Hmaj, list_elem_of_In.
  - rewrite forallb_forall in Hmin.
    specialize (Hmin t (proj1 (list_elem_of_In _ _) Ht)).
    rewrite forallb_forall in Hmin. split.
    + by apply Hmin, list_elem_of_In.
    + rewrite legal_tonics_minor; [done|].
      unfold minor_qualities in Hq.
      repeat (apply elem_of_cons in Hq as [->|Hq]); try by vm_compute.
      by apply elem_of_nil in Hq.
Qed.

(** C2. Over tables that resolve the legal tonics, every legal major tonic
    with MAJOR and every legal minor tonic with a minor quality (each list
    has 15 tonics) constructs a Scale of exactly seven notes whose first
    note has the tonic's letter. *)
Theorem legal_scales_construct `{Countable Interval}
    (SCALE_INTERVALS : gmap string (list Interval))
    (INTERVAL_NOTE_PAIRS : gmap string (gmap Interval string))
    (tonic quality : string) :
  tables_cover SCALE_INTERVALS INTERVAL_NOTE_PAIRS = true →
  (quality = "MAJOR" ∧ tonic ∈ major_tonics)
  ∨ (quality ∈ minor_qualities ∧ tonic ∈ minor_tonics) →
  length major_tonics = 15%nat ∧ length minor_tonics = 15%nat
  ∧ ∃ self notes first,
      Scale_new SCALE_INTERVALS INTERVAL_NOTE_PAIRS (scale_name tonic quality)
      = Ok self
      ∧ _notes self = Some notes
      ∧ length notes = 7%nat
      ∧ notes !! 0%nat = Some first
      ∧ name_letter tonic = Some (letter first).
Proof.
  intros Hcover Hlegal.
  split; [by vm_compute|]. split; [by vm_compute|].
  destruct (tables_cover_resolves _ _ _ _ Hcover Hlegal) as [Hres Ht].
  destruct (build_scale_resolves _ _ _ _ Hres) as (ns & n0 & Hb & Hlen & H0 & Hn0).
  destruct (fetch_key_signature_legal _ _ Ht) as [ks Hks].
  exists (Scale_built tonic quality ns ks), ns, n0.
  rewrite (Scale_new_join _ _ _ _ (legal_tonic_no_space _ _ Ht)).
  rewrite (proj2 (list_in_true _ _) Ht), Hb. cbn [mbind result_bind].
  rewrite Hks. repeat split; try done. by apply Note_new_letter.
Qed.

Lemma reference_tables_cover :
  tables_cover Reference.SCALE_INTERVALS Reference.INTERVAL_NOTE_PAIRS = true.
Proof. by vm_compute. Qed.

Lemma legal_scales_construct_witness :
  tables_cover Reference.SCALE_INTERVALS Reference.INTERVAL_NOTE_PAIRS = true
  ∧ ("HARMONIC MINOR" ∈ minor_qualities ∧ "G#" ∈ minor_tonics)
  ∧ ∃ self notes first,
      Reference.Scale "G# HARMONIC MINOR" = Ok self
      ∧ _notes self = Some notes
      ∧ length notes = 7%nat
      ∧ notes !! 0%nat = Some first
      ∧ letter first = LG.
Proof.
  assert (Hq : "HARMONIC MINOR" ∈ minor_qualities ∧ "G#" ∈ minor_tonics).
  { split; apply list_in_true; by vm_compute. }
  split; [exact reference_tables_cover|]. split; [exact Hq|].
  destruct (legal_scales_construct Reference.SCALE_INTERVALS
              Reference.INTERVAL_NOTE_PAIRS "G#" "HARMONIC MINOR"
              reference_tables_cover (or_intror Hq))
    as (_ & _ & self & notes & first & Hnew & Hnotes & Hlen & Hfirst & Hl).
  exists self, notes, first. repeat split; try done.
  by injection Hl as <-.
Defined.

(** ** Key signatures of scales *)

(** C3. The key signature of [Scale("G MAJOR")] is [F#], that of
    [Scale("F MAJOR")] is [Bb], and that of [Scale("C# MAJOR")] is the seven
    sharps F#, C#, G#, D#, A#, E#, B#: the lookup returns these lists, and
    the constructor stores them whenever [build_scale] returns the notes. *)
Theorem key_signature_examples `{Countable Interval}
    (SCALE_INTERVALS : gmap string (list Interval))
    (INTERVAL_NOTE_PAIRS : gmap string (gmap Interval string)) :
  let build := build_scale SCALE_INTERVALS INTERVAL_NOTE_PAIRS in
  let new := Scale_new SCALE_INTERVALS INTERVAL_NOTE_PAIRS in
  let sharps := ["F#"; "C#"; "G#"; "D#"; "A#"; "E#"; "B#"] in
  fetch_key_signature "G" "MAJOR" = Ok ["F#"]
  ∧ fetch_key_signature "F" "MAJOR" = Ok ["Bb"]
  ∧ fetch_key_signature "C#" "MAJOR" = Ok sharps
  ∧ length sharps = 7%nat
  ∧ new "G MAJOR" = (ns ← build "G" "MAJOR"; Ok (Scale_built "G" "MAJOR" ns ["F#"]))
  ∧ new "F MAJOR" = (ns ← build "F" "MAJOR"; Ok (Scale_built "F" "MAJOR" ns ["Bb"]))
  ∧ new "C# MAJOR" = (ns ← build "C#" "MAJOR"; Ok (Scale_built "C#" "MAJOR" ns sharps))
  ∧ (∃ self, Reference.Scale "G MAJOR" = Ok self
             ∧ key_signature self = Some ["F#"])
  ∧ (∃ self, Reference.Scale "F MAJOR" = Ok self
             ∧ key_signature self = Some ["Bb"])
  ∧ (∃ self, Reference.Scale "C# MAJOR" = Ok self
             ∧ key_signature self = Some sharps).
Proof.
  intros build new sharps. subst build new sharps.
  assert (HG : fetch_key_signature "G" "MAJOR" = Ok ["F#"]) by (by vm_compute).
  assert (HF : fetch_key_signature "F" "MAJOR" = Ok ["Bb"]) by (by vm_compute).
  assert (HC : fetch_key_signature "C#" "MAJOR"
               = Ok ["F#"; "C#"; "G#"; "D#"; "A#"; "E#"; "B#"])
    by (by vm_compute).
  assert (Hnew : ∀ t, t ∈ major_tonics →
            Scale_new SCALE_INTERVALS INTERVAL_NOTE_PAIRS (scale_name t "MAJOR")
            = (ns ← build_scale SCALE_INTERVALS INTERVAL_NOTE_PAIRS t "MAJOR";
               ks ← fetch_key_signature t "MAJOR";
               Ok (Scale_built t "MAJOR" ns ks))).
  { intros t Ht.
    rewrite (Scale_new_join _ _ _ _ (legal_tonic_no_space t "MAJOR" Ht)).
    by rewrite (proj2 (list_in_true t (legal_tonics "MAJOR")) Ht). }
  repeat split; try done.
  - change "G MAJOR" with (scale_name "G" "MAJOR").
    rewrite Hnew, HG; [done|]. apply list_in_true. by vm_compute.
  - change "F MAJOR" with (scale_name "F" "MAJOR").
    rewrite Hnew, HF; [done|]. apply list_in_true. by vm_compute.
  - change "C# MAJOR" with (scale_name "C#" "MAJOR").
    rewrite Hnew, HC; [done|]. apply list_in_true. by vm_compute.
  - eexists. split; [by vm_compute|done].
  - eexists. split; [by vm_compute|done].
  - eexists. split; [by vm_compute|done].
Qed.

(** C4, as stated, fails.  That the key signature is empty only for C major
    and A natural minor is refuted by A harmonic minor: the scale is
    constructed, its key signature is empty, and it is neither of the two. *)
Lemma harmonic_minor_on_A_has_empty_key_signature :
  fetch_key_signature "A" "HARMONIC MINOR" = Ok []
  ∧ ∃ self, Reference.Scale "A HARMONIC MINOR" = Ok self
            ∧ _tonic self = Some "A"
            ∧ _quality self = Some "HARMONIC MINOR"
            ∧ key_signature self = Some []
            ∧ is_C_major_or_A_natural_minor self = false.
Proof.
  split; [by vm_compute|].
  eexists. split; [by vm_compute|]. repeat split; by vm_compute.
Qed.

(** C4 (amended). For every constructed Scale the key signature is the empty
    list if and only if the tonic is C and the quality does not contain
    MINOR, or the tonic is A and the quality contains MINOR: every minor
    variant on A has the empty key signature, not the natural minor alone. *)
Theorem key_signature_empty_iff `{Countable Interval}
    (SCALE_INTERVALS : gmap string (list Interval))
    (INTERVAL_NOTE_PAIRS : gmap string (gmap Interval string))
    (name : string) (self : Scale) :
  Scale_new SCALE_INTERVALS INTERVAL_NOTE_PAIRS name = Ok self →
  ∃ tonic quality,
    name = scale_name tonic quality
    ∧ _tonic self = Some tonic ∧ _quality self = Some quality
    ∧ (key_signature self = Some []
       ↔ (tonic = "C" ∧ Py.str_in "MINOR" quality = false)
         ∨ (tonic = "A" ∧ Py.str_in "MINOR" quality = true)).
Proof.
  intros (t & q & ns & ks & -> & Ht & _ & Hks & ->)%Scale_new_Ok.
  exists t, q. split; [done|]. split; [done|]. split; [done|].
  cbn [key_signature Scale_built].
  assert (Hks' : ks = [] ↔ (t = "C" ∧ Py.str_in "MINOR" q = false)
                          ∨ (t = "A" ∧ Py.str_in "MINOR" q = true)).
  { destruct (legal_tonics_cases t q Ht) as [[Hq Hl]|[Hq Hl]].
    - rewrite (fetch_key_signature_major t q Hq) in Hks.
      destruct (fetch_key_signature_major_tonics t Hl) as (ks' & Hks' & Hiff).
      rewrite Hks' in Hks. injection Hks as <-. rewrite Hiff, Hq.
      intuition congruence.
    - rewrite (fetch_key_signature_minor t q Hq) in Hks.
      destruct (fetch_key_signature_minor_tonics t Hl) as (ks' & Hks' & Hiff).
      rewrite Hks' in Hks. injection Hks as <-. rewrite Hiff, Hq.
      intuition congruence. }
  rewrite <- Hks'. split; [by intros [= ?]|by intros ->].
Qed.

Lemma key_signature_empty_iff_witness :
  let self :=
    Scale_built "A" "MELODIC MINOR"
      [mkNote LA Natural; mkNote LB Natural; mkNote LC Natural;
       mkNote LD Natural; mkNote LE Natural; mkNote LF Sharp;
       mkNote LG Sharp] [] in
  Reference.Scale "A MELODIC MINOR" = Ok self
  ∧ ∃ tonic quality,
      "A MELODIC MINOR" = scale_name tonic quality
      ∧ _tonic self = Some tonic ∧ _quality self = Some quality
      ∧ (key_signature self = Some []
         ↔ (tonic = "C" ∧ Py.str_in "MINOR" quality = false)
           ∨ (tonic = "A" ∧ Py.str_in "MINOR" quality = true)).
Proof.
  assert (Hnew : Reference.Scale "A MELODIC MINOR"
                 = Ok (Scale_built "A" "MELODIC MINOR"
                         [mkNote LA Natural; mkNote LB Natural;
                          mkNote LC Natural; mkNote LD Natural;
                          mkNote LE Natural; mkNote LF Sharp;
                          mkNote LG Sharp] [])) by (by vm_compute).
  split; [exact Hnew|].
  exact (key_signature_empty_iff _ _ _ _ Hnew).
Defined.

(** C5. For every legal minor tonic the scales of qualities NATURAL MINOR,
    HARMONIC MINOR and MELODIC MINOR have the same key signature: the lookup
    appends MINOR to the tonic when the quality contains MINOR and MAJOR
    otherwise, so it depends on the quality through that test only, and the
    three variants read the one entry of the tonic's minor key. *)
Theorem minor_variants_share_key_signature `{Countable Interval}
    (SCALE_INTERVALS : gmap string (list Interval))
    (INTERVAL_NOTE_PAIRS : gmap string (gmap Interval string))
    (tonic : string) :
  tonic ∈ minor_tonics →
  (∀ t q,
     fetch_key_signature t q
     = (n ← Py.getitem KEY_SIGNATURE_NUMBERS
              (t +:+ (if Py.str_in "MINOR" q then " MINOR" else " MAJOR"));
        Py.getitem KEY_SIGNATURES n))
  ∧ (∀ t q q', Py.str_in "MINOR" q = Py.str_in "MINOR" q' →
               fetch_key_signature t q = fetch_key_signature t q')
  ∧ ∃ ks,
      (n ← Py.getitem KEY_SIGNATURE_NUMBERS (tonic +:+ " MINOR");
       Py.getitem KEY_SIGNATURES n) = Ok ks
      ∧ ∀ q, q ∈ minor_qualities →
          fetch_key_signature tonic q = Ok ks
          ∧ Scale_new SCALE_INTERVALS INTERVAL_NOTE_PAIRS (scale_name tonic q)
            = (ns ← build_scale SCALE_INTERVALS INTERVAL_NOTE_PAIRS tonic q;
               Ok (Scale_built tonic q ns ks)).
Proof.
  intros Ht. split; [done|].
  split; [by apply fetch_key_signature_class|].
  destruct (fetch_key_signature_minor_tonics tonic Ht) as (ks & Hks & _).
  exists ks. split; [exact Hks|]. intros q Hq.
  assert (Hminor : Py.str_in "MINOR" q = true).
  { unfold minor_qualities in Hq.
    repeat (apply elem_of_cons in Hq as [->|Hq]); try by vm_compute.
    by apply elem_of_nil in Hq. }
  assert (Hfetch : fetch_key_signature tonic q = Ok ks)
    by (by rewrite (fetch_key_signature_minor tonic q Hminor)).
  split; [exact Hfetch|].
  assert (Hlegal : tonic ∈ legal_tonics q)
    by (by rewrite (legal_tonics_minor q Hminor)).
  rewrite (Scale_new_join _ _ _ _ (legal_tonic_no_space _ _ Hlegal)).
  rewrite (proj2 (list_in_true _ _) Hlegal).
  destruct (build_scale _ _ tonic q) as [ns|e]; [|done].
  cbn [mbind result_bind]. by rewrite Hfetch.
Qed.

Lemma minor_variants_share_key_signature_witness :
  "F#" ∈ minor_tonics
  ∧ ∃ self1 self2 self3,
      Reference.Scale "F# NATURAL MINOR" = Ok self1
      ∧ Reference.Scale "F# HARMONIC MINOR" = Ok self2
      ∧ Reference.Scale "F# MELODIC MINOR" = Ok self3
      ∧ key_signature self1 = Some ["F#"; "C#"; "G#"]
      ∧ key_signature self2 = key_signature self1
      ∧ key_signature self3 = key_signature self1
      ∧ _notes self2 ≠ _notes self3.
Proof.
  assert (Ht : "F#" ∈ minor_tonics) by (apply list_in_true; by vm_compute).
  split; [exact Ht|].
  destruct (minor_variants_share_key_signature Reference.SCALE_INTERVALS
              Reference.INTERVAL_NOTE_PAIRS "F#" Ht) as (_ & _ & ks & Hks & Hq).
  assert (Hks' : ks = ["F#"; "C#"; "G#"]).
  { assert (Hc : (n ← Py.getitem KEY_SIGNATURE_NUMBERS ("F#" +:+ " MINOR");
                  Py.getitem KEY_SIGNATURES n) = Ok ["F#"; "C#"; "G#"])
      by (by vm_compute).
    rewrite Hks in Hc. by injection Hc. }
  subst ks. eexists _, _, _.
  split; [by vm_compute|]. split; [by vm_compute|]. split; [by vm_compute|].
  repeat split; try done.
Defined.

(** ** Scale degrees *)

Lemma degree_names_lookup degree :
  match degree_names !! degree with
  | Some i =>
      (degree, i) ∈ [("TONIC", 0); ("SUPERTONIC", 1); ("MEDIANT", 2);
                     ("SUBDOMINANT", 3); ("DOMINANT", 4); ("SUBMEDIANT", 5);
                     ("LEADING TONE", 6)]%nat
  | None =>
      degree ∉ ["TONIC"; "SUPERTONIC"; "MEDIANT"; "SUBDOMINANT"; "DOMINANT";
                "SUBMEDIANT"; "LEADING TONE"]
  end.
Proof.
  destruct (degree_names !! degree) as [i|] eqn:Hd.
  - by apply elem_of_list_to_map_2 in Hd.
  - by apply not_elem_of_list_to_map_2 in Hd.
Qed.

Lemma index_not_KeyError {A} (t : list A) i : Py.index t i ≠ Err KeyError.
Proof. unfold Py.index. by destruct (t !! i). Qed.

(** C6. On a Scale whose quality is MAJOR or contains MINOR, each of the
    seven degree names TONIC, SUPERTONIC, MEDIANT, SUBDOMINANT, DOMINANT,
    SUBMEDIANT, LEADING TONE returns the note at index 0 to 6, in this order,
    and any other name, matched exactly and with case, raises
    [InvalidDegreeError]; on a Scale of any other quality every degree
    request raises [InvalidDegreeError]. *)
Theorem degree_lookup (self : Scale) (quality : string) (notes : list Note) :
  _quality self = Some quality →
  _notes self = Some notes →
  let degrees :=
    [("TONIC", 0); ("SUPERTONIC", 1); ("MEDIANT", 2); ("SUBDOMINANT", 3);
     ("DOMINANT", 4); ("SUBMEDIANT", 5); ("LEADING TONE", 6)]%nat in
  let supported := String.eqb quality "MAJOR" || Py.str_in "MINOR" quality in
  (supported = true →
     (∀ degree i, (degree, i) ∈ degrees →
        Scale__getitem__ degree self = (self, Py.index notes i))
     ∧ (∀ degree i note, (degree, i) ∈ degrees → notes !! i = Some note →
          Scale__getitem__ degree self = (self, Ok note))
     ∧ (∀ degree, degree ∉ degrees.*1 →
          Scale__getitem__ degree self
          = (self, Err (InvalidDegreeError ("Invalid degree name: " +:+ degree)))))
  ∧ (supported = false →
       ∀ degree,
         Scale__getitem__ degree self
         = (self, Err (InvalidDegreeError
                         "Only major and minor scales are subscriptable")))
  ∧ ("tonic" ∉ degrees.*1) ∧ ("NONSENSE" ∉ degrees.*1).
Proof.
  intros Hq Hn degrees supported.
  assert (Hget : ∀ degree,
            Scale__getitem__ degree self
            = if supported then
                match degree_names !! degree with
                | Some i => (self, Py.index notes i)
                | None => (self, Err (InvalidDegreeError
                                        ("Invalid degree name: " +:+ degree)))
                end
              else (self, Err (InvalidDegreeError
                                 "Only major and minor scales are subscriptable"))).
  { intros degree. subst supported.
    cbv beta iota delta [Scale__getitem__ mbind method_bind getattr].
    rewrite Hq. rewrite <- negb_orb.
    destruct (String.eqb quality "MAJOR" || Py.str_in "MINOR" quality);
      cbn [negb]; [|done].
    cbv beta iota delta [try_except_KeyError mbind method_bind call getattr
                         raise Py.getitem].
    destruct (degree_names !! degree) as [i|]; [|done].
    rewrite Hn. pose proof (index_not_KeyError notes i) as Hi.
    by destruct (Py.index notes i) as [n|[]]. }
  split; [intros Hs; rewrite Hs in Hget; repeat split|split].
  - intros degree i Hd. rewrite Hget.
    assert (Hl : degree_names !! degree = Some i).
    { subst degrees. repeat (apply elem_of_cons in Hd as [[= -> ->]|Hd]);
        try by vm_compute. by apply elem_of_nil in Hd. }
    by rewrite Hl.
  - intros degree i note Hd Hi. rewrite Hget.
    assert (Hl : degree_names !! degree = Some i).
    { subst degrees. repeat (apply elem_of_cons in Hd as [[= -> ->]|Hd]);
        try by vm_compute. by apply elem_of_nil in Hd. }
    rewrite Hl. unfold Py.index. by rewrite Hi.
  - intros degree Hd. rewrite Hget.
    pose proof (degree_names_lookup degree) as Hl.
    destruct (degree_names !! degree) as [i|]; [|done].
    destruct Hd. by apply (list_elem_of_fmap_2' fst _ (degree, i)).
  - intros Hs degree. by rewrite Hget, Hs.
  - split; apply list_in_false; by vm_compute.
Qed.

Lemma degree_lookup_witness :
  let self :=
    Scale_built "D" "MAJOR"
      [mkNote LD Natural; mkNote LE Natural; mkNote LF Sharp;
       mkNote LG Natural; mkNote LA Natural; mkNote LB Natural;
       mkNote LC Sharp] ["F#"; "C#"] in
  Reference.Scale "D MAJOR" = Ok self
  ∧ Scale__getitem__ "TONIC" self = (self, Ok (mkNote LD Natural))
  ∧ Scale__getitem__ "DOMINANT" self = (self, Ok (mkNote LA Natural))
  ∧ Scale__getitem__ "NONSENSE" self
    = (self, Err (InvalidDegreeError "Invalid degree name: NONSENSE")).
Proof.
  intros self.
  destruct (degree_lookup self "MAJOR" (default [] (_notes self))
              eq_refl eq_refl) as (Hok & _ & _ & Hnonsense).
  destruct (Hok eq_refl) as (_ & Hnote & Hbad).
  split; [by vm_compute|]. split; [|split].
  - apply (Hnote "TONIC" 0%nat); [|done]. by repeat constructor.
  - apply (Hnote "DOMINANT" 4%nat); [|done]. by repeat constructor.
  - exact (Hbad "NONSENSE" Hnonsense).
Defined.

(** ** Failure during construction *)

(** C7, as stated, fails.  That a failing construction fails before any
    attribute is set does not hold for a quality the pattern table lacks:
    [__init__] has assigned the tonic and the quality when [build_scale]
    raises. *)
Lemma unknown_quality_leaves_attributes_set :
  Scale__init__ Reference.SCALE_INTERVALS Reference.INTERVAL_NOTE_PAIRS
    "C FOO" Scale_blank
  = (mkScale (Some "C") (Some "FOO") None None, Err KeyError)
  ∧ Reference.Scale "C FOO" = Err KeyError.
Proof. split; by vm_compute. Qed.

(** This does not depend on the table: a dictionary has finitely many keys,
    so every pattern table lacks some quality, and A is a legal tonic
    whatever the quality. *)
Lemma every_table_lacks_a_quality `{Countable Interval}
    (SCALE_INTERVALS : gmap string (list Interval))
    (INTERVAL_NOTE_PAIRS : gmap string (gmap Interval string)) :
  ∃ quality,
    Scale__init__ SCALE_INTERVALS INTERVAL_NOTE_PAIRS
      (scale_name "A" quality) Scale_blank
    = (mkScale (Some "A") (Some quality) None None, Err KeyError).
Proof.
  set (q := fresh (dom SCALE_INTERVALS)). exists q.
  assert (Hq : SCALE_INTERVALS !! q = None).
  { apply not_elem_of_dom. apply is_fresh. }
  assert (Ht : Py.list_in "A" (legal_tonics q) = true).
  { unfold legal_tonics. by destruct (Py.str_in "MINOR" q); vm_compute. }
  rewrite Scale__init__join by (by vm_compute).
  by rewrite Ht, (build_scale_unknown_quality _ _ _ _ Hq).
Qed.

(** C7 (amended). [__init__] on a blank instance ends in one of three ways.
    It returns, with the four attributes set to the tonic and the quality of
    the name, the notes [build_scale] returned and the key signature
    [fetch_key_signature] returned, and the constructor hands that instance
    to the caller.  Or unpacking or validation raises ([IndexError] for a
    name without a space, [InvalidTonicError] for an illegal tonic) before
    any attribute is set.  Or [build_scale] raises after the tonic and the
    quality have been set and before the notes and the key signature are.
    In the two failing cases the constructor raises the same exception and
    hands no instance to the caller. *)
Theorem construction_outcomes `{Countable Interval}
    (SCALE_INTERVALS : gmap string (list Interval))
    (INTERVAL_NOTE_PAIRS : gmap string (gmap Interval string))
    (name : string) :
  let build := build_scale SCALE_INTERVALS INTERVAL_NOTE_PAIRS in
  let new := Scale_new SCALE_INTERVALS INTERVAL_NOTE_PAIRS in
  ∃ self outcome,
    Scale__init__ SCALE_INTERVALS INTERVAL_NOTE_PAIRS name Scale_blank
    = (self, outcome)
    ∧ match outcome with
      | Ok _ =>
          new name = Ok self
          ∧ ∃ tonic quality notes signature,
              name = scale_name tonic quality
              ∧ tonic ∈ legal_tonics quality
              ∧ build tonic quality = Ok notes
              ∧ fetch_key_signature tonic quality = Ok signature
              ∧ self = mkScale (Some tonic) (Some quality) (Some notes)
                         (Some signature)
      | Err e =>
          new name = Err e
          ∧ ((self = Scale_blank
              ∧ (e = IndexError ∧ Py.str_in " " name = false
                 ∨ ∃ tonic quality,
                     name = scale_name tonic quality
                     ∧ (tonic ∉ legal_tonics quality)
                     ∧ e = InvalidTonicError (invalid_tonic_message tonic)))
             ∨ ∃ tonic quality,
                 name = scale_name tonic quality
                 ∧ tonic ∈ legal_tonics quality
                 ∧ build tonic quality = Err e
                 ∧ self = mkScale (Some tonic) (Some quality) None None)
      end.
Proof.
  intros build new. subst build new.
  destruct (scale_name_cases name) as [Hs|(t & q & -> & Hns)].
  - exists Scale_blank, (Err IndexError).
    split; [by apply Scale__init__no_space|].
    split; [unfold Scale_new; by rewrite Scale__init__no_space|].
    left. split; [done|]. left. split; [done|]. by apply cut_space_None.
  - unfold Scale_new. rewrite (Scale__init__join _ _ t q Hns).
    destruct (Py.list_in t (legal_tonics q)) eqn:Ht.
    + apply list_in_true in Ht.
      destruct (build_scale _ _ t q) as [ns|e] eqn:Hb.
      * destruct (fetch_key_signature_legal t q Ht) as [ks Hks]. rewrite Hks.
        exists (Scale_built t q ns ks), (Ok ()). split; [done|].
        split; [done|]. by exists t, q, ns, ks.
      * exists (Scale_named t q), (Err e). split; [done|]. split; [done|].
        right. by exists t, q.
    + apply list_in_false in Ht.
      exists Scale_blank, (Err (InvalidTonicError (invalid_tonic_message t))).
      split; [done|]. split; [done|]. left. split; [done|]. right.
      by exists t, q.
Qed.

(** ** Enumeration and membership *)

Lemma ascend_notes self notes :
  _notes self = Some notes →
  ascend self = (self, Ok (qualified_name <$> notes)).
Proof.
  intros Hn. cbv beta iota delta [ascend mbind method_bind getattr].
  by rewrite Hn.
Qed.

Lemma contains_notes self notes note :
  _notes self = Some notes →
  Scale__contains__ note self
  = (self, Ok (existsb (fun e => Note_eq note e) notes)).
Proof.
  intros Hn. cbv beta iota delta [Scale__contains__ mbind method_bind getattr].
  by rewrite Hn.
Qed.

Lemma Note_new_qualified_name n : Note_new (qualified_name n) = Ok n.
Proof. by destruct n as [[] []]. Qed.

Lemma Note_eq_true a b : Note_eq a b = true ↔ a = b.
Proof. unfold Note_eq. apply bool_decide_eq_true. Qed.

(** C8. Over tables whose patterns have seven intervals, [ascend()] on a
    constructed Scale returns the qualified names of its notes in the order
    of the notes, tonic first, seven in all; it leaves the instance as it
    was, and a second call returns what the first returned. *)
Theorem ascend_names `{Countable Interval}
    (SCALE_INTERVALS : gmap string (list Interval))
    (INTERVAL_NOTE_PAIRS : gmap string (gmap Interval string))
    (name : string) (self : Scale) :
  map_Forall (fun _ pattern => length pattern = 7%nat) SCALE_INTERVALS →
  Scale_new SCALE_INTERVALS INTERVAL_NOTE_PAIRS name = Ok self →
  ∃ notes,
    _notes self = Some notes
    ∧ ascend self = (self, Ok (qualified_name <$> notes))
    ∧ length (qualified_name <$> notes) = 7%nat
    ∧ (∀ i note, notes !! i = Some note →
         (qualified_name <$> notes) !! i = Some (qualified_name note))
    ∧ (first ← ascend; second ← ascend; mret (first, second)) self
      = (self, Ok (qualified_name <$> notes, qualified_name <$> notes)).
Proof.
  intros Hseven (t & q & ns & ks & -> & Ht & Hb & Hks & ->)%Scale_new_Ok.
  exists ns. split; [done|].
  assert (Hasc : ascend (Scale_built t q ns ks)
                 = (Scale_built t q ns ks, Ok (qualified_name <$> ns)))
    by (by apply ascend_notes).
  split; [exact Hasc|]. split; [|split].
  - destruct (build_scale_length _ _ _ _ _ Hb) as (pattern & Hq & Hlen).
    rewrite length_fmap, Hlen. exact (Hseven q pattern Hq).
  - intros i note Hi. by rewrite list_lookup_fmap, Hi.
  - cbv beta iota delta [mbind method_bind mret method_ret].
    by rewrite Hasc.
Qed.

Lemma reference_patterns_seven :
  map_Forall (fun _ pattern => length pattern = 7%nat) Reference.SCALE_INTERVALS.
Proof.
  intros q pattern Hq. apply elem_of_list_to_map_2 in Hq.
  repeat (apply elem_of_cons in Hq as [[= -> ->]|Hq]); try done.
  by apply elem_of_nil in Hq.
Qed.

Lemma ascend_names_witness :
  let self :=
    Scale_built "D" "MAJOR"
      [mkNote LD Natural; mkNote LE Natural; mkNote LF Sharp;
       mkNote LG Natural; mkNote LA Natural; mkNote LB Natural;
       mkNote LC Sharp] ["F#"; "C#"] in
  Reference.Scale "D MAJOR" = Ok self
  ∧ ascend self = (self, Ok ["D"; "E"; "F#"; "G"; "A"; "B"; "C#"]).
Proof.
  intros self.
  assert (Hnew : Reference.Scale "D MAJOR" = Ok self) by (by vm_compute).
  split; [exact Hnew|].
  destruct (ascend_names _ _ _ _ reference_patterns_seven Hnew)
    as (notes & Hnotes & Hasc & _).
  injection Hnotes as <-. exact Hasc.
Defined.

(** C9. On a constructed Scale the membership test returns true exactly when
    some note of the scale equals the argument, Notes being equal when
    letter and accidental agree; and every name [ascend()] returns, read
    back as a Note, is contained in the scale. *)
Theorem contains_iff_member `{Countable Interval}
    (SCALE_INTERVALS : gmap string (list Interval))
    (INTERVAL_NOTE_PAIRS : gmap string (gmap Interval string))
    (name : string) (self : Scale) :
  Scale_new SCALE_INTERVALS INTERVAL_NOTE_PAIRS name = Ok self →
  ∃ notes,
    _notes self = Some notes
    ∧ (∀ note, ∃ b : bool,
         Scale__contains__ note self = (self, Ok b)
         ∧ (b = true ↔ ∃ e, e ∈ notes ∧ Note_eq note e = true))
    ∧ (∀ a b, Note_eq a b = true
              ↔ letter a = letter b ∧ accidental a = accidental b)
    ∧ ∃ names,
        ascend self = (self, Ok names)
        ∧ ∀ qualified, qualified ∈ names →
            ∃ note, Note_new qualified = Ok note
                    ∧ Scale__contains__ note self = (self, Ok true).
Proof.
  intros (t & q & ns & ks & -> & _ & _ & _ & ->)%Scale_new_Ok.
  exists ns. split; [done|].
  assert (Hmem : ∀ note, existsb (fun e => Note_eq note e) ns = true
                         ↔ ∃ e, e ∈ ns ∧ Note_eq note e = true).
  { intros note. rewrite existsb_exists.
    split; intros (e & He & Heq); exists e; split; try done;
      by apply list_elem_of_In. }
  split; [|split].
  - intros note. eexists. split; [by apply contains_notes|]. apply Hmem.
  - intros [l1 a1] [l2 a2]. rewrite Note_eq_true. cbn [letter accidental].
    split; [by intros [= -> ->]|by intros [-> ->]].
  - exists (qualified_name <$> ns). split; [by apply ascend_notes|].
    intros qualified (note & -> & Hnote)%list_elem_of_fmap.
    exists note. split; [apply Note_new_qualified_name|].
    rewrite (contains_notes _ ns) by done. do 2 f_equal.
    apply Hmem. exists note. split; [done|]. by apply Note_eq_true.
Qed.

Lemma contains_iff_member_witness :
  let self :=
    Scale_built "F" "MAJOR"
      [mkNote LF Natural; mkNote LG Natural; mkNote LA Natural;
       mkNote LB Flat; mkNote LC Natural; mkNote LD Natural;
       mkNote LE Natural] ["Bb"] in
  Reference.Scale "F MAJOR" = Ok self
  ∧ Scale__contains__ (mkNote LB Flat) self = (self, Ok true)
  ∧ Scale__contains__ (mkNote LB Natural) self = (self, Ok false)
  ∧ Note_new "Bb" = Ok (mkNote LB Flat).
Proof.
  intros self.
  assert (Hnew : Reference.Scale "F MAJOR" = Ok self) by (by vm_compute).
  split; [exact Hnew|].
  destruct (contains_iff_member _ _ _ _ Hnew)
    as (notes & Hnotes & Hmem & _ & names & Hasc & Hback).
  assert (Hnames : names = ["F"; "G"; "A"; "Bb"; "C"; "D"; "E"]).
  { assert (Hc : ascend self = (self, Ok ["F"; "G"; "A"; "Bb"; "C"; "D"; "E"]))
      by reflexivity.
    rewrite Hasc in Hc. by injection Hc. }
  destruct (Hback "Bb") as (note & Hparse & Hin).
  { rewrite Hnames. by repeat constructor. }
  assert (Hnote : note = mkNote LB Flat).
  { assert (Hc : Note_new "Bb" = Ok (mkNote LB Flat)) by reflexivity.
    rewrite Hparse in Hc. by injection Hc. }
  subst note. split; [exact Hin|]. split; [reflexivity|exact Hparse].
Defined.

(** ** Unknown qualities *)

(** C10. The constructor never checks the quality string itself: validation
    reads it only to choose the legal-tonic list.  For a tonic in the list
    the quality selects and a quality that is not a key of the pattern
    table, such as C with FOO, [validate_tonic] passes and the construction
    then fails in [build_scale] with [KeyError], which is neither
    [InvalidTonicError] nor [InvalidDegreeError]. *)
Theorem unknown_quality_raises_KeyError `{Countable Interval}
    (SCALE_INTERVALS : gmap string (list Interval))
    (INTERVAL_NOTE_PAIRS : gmap string (gmap Interval string))
    (tonic quality : string) :
  tonic ∈ legal_tonics quality →
  SCALE_INTERVALS !! quality = None →
  unpack_scale_name (scale_name tonic quality)
  = Ok ({[ "TONIC" := tonic; "QUALITY" := quality ]} : gmap string string)
  ∧ validate_tonic {[ "TONIC" := tonic; "QUALITY" := quality ]} = Ok ()
  ∧ build_scale SCALE_INTERVALS INTERVAL_NOTE_PAIRS tonic quality
    = Err KeyError
  ∧ Scale__init__ SCALE_INTERVALS INTERVAL_NOTE_PAIRS
      (scale_name tonic quality) Scale_blank
    = (mkScale (Some tonic) (Some quality) None None, Err KeyError)
  ∧ Scale_new SCALE_INTERVALS INTERVAL_NOTE_PAIRS (scale_name tonic quality)
    = Err KeyError
  ∧ (∀ msg, KeyError ≠ InvalidTonicError msg ∧ KeyError ≠ InvalidDegreeError msg)
  ∧ (∀ t q q', Py.str_in "MINOR" q = Py.str_in "MINOR" q' →
               validate_tonic {[ "TONIC" := t; "QUALITY" := q ]}
               = validate_tonic {[ "TONIC" := t; "QUALITY" := q' ]})
  ∧ Py.str_in "MINOR" "FOO" = false ∧ "C" ∈ legal_tonics "FOO".
Proof.
  intros Ht Hq.
  pose proof (legal_tonic_no_space _ _ Ht) as Hns.
  pose proof (build_scale_unknown_quality _ INTERVAL_NOTE_PAIRS tonic _ Hq)
    as Hb.
  split; [by apply unpack_scale_name_join|].
  split; [by rewrite validate_tonic_unpacked, (proj2 (list_in_true _ _) Ht)|].
  split; [exact Hb|].
  split.
  { by rewrite (Scale__init__join _ _ _ _ Hns),
               (proj2 (list_in_true _ _) Ht), Hb. }
  split.
  { by rewrite (Scale_new_join _ _ _ _ Hns),
               (proj2 (list_in_true _ _) Ht), Hb. }
  split; [done|]. split.
  { intros t q q' Hqq. rewrite !validate_tonic_unpacked.
    unfold legal_tonics. by rewrite Hqq. }
  split; [by vm_compute|]. apply list_in_true. by vm_compute.
Qed.

Lemma unknown_quality_raises_KeyError_witness :
  "C" ∈ legal_tonics "FOO"
  ∧ Reference.SCALE_INTERVALS !! "FOO" = None
  ∧ Reference.Scale "C FOO" = Err KeyError.
Proof.
  assert (Ht : "C" ∈ legal_tonics "FOO") by (apply list_in_true; by vm_compute).
  assert (Hq : Reference.SCALE_INTERVALS !! "FOO" = None) by (by vm_compute).
  split; [exact Ht|]. split; [exact Hq|].
  exact (proj1 (proj2 (proj2 (proj2 (proj2
    (unknown_quality_raises_KeyError _ Reference.INTERVAL_NOTE_PAIRS
       "C" "FOO" Ht Hq)))))).
Defined.

(** * Further properties of the module *)

(** ** More on strings and lookups *)

Lemma string_length_append (a s : string) :
  String.length (a +:+ s) = (String.length a + String.length s)%nat.
Proof.
  induction a as [|c a IH]; [done|].
  rewrite append_cons. cbn [String.length]. by rewrite IH.
Qed.

Lemma substring_append (a s : string) :
  String.substring 0 (String.length a) (a +:+ s) = a.
Proof.
  induction a as [|c a IH]; [by destruct s|].
  rewrite append_cons. cbn [String.length String.substring]. by rewrite IH.
Qed.

(** A string that ends in [s] determines what stands before [s]. *)
Lemma append_inv (a s c : string) :
  a +:+ s = c →
  a = String.substring 0 (String.length c - String.length s) c.
Proof.
  intros <-. rewrite string_length_append.
  replace (String.length a + String.length s - String.length s)%nat
    with (String.length a) by lia.
  by rewrite substring_append.
Qed.

Lemma mapM_result_Forall2 {A B} (f : A → result B) (l : list A) ys :
  mapM f l = Ok ys → Forall2 (fun x y => f x = Ok y) l ys.
Proof.
  revert ys. induction l as [|x l IH]; intros ys.
  - intros [= <-]. constructor.
  - cbn [mapM]. destruct (f x) as [y|e] eqn:Hfx; [|done].
    cbn [mbind result_bind].
    destruct (mapM f l) as [ys'|e]; [|done]. cbn [mbind result_bind].
    intros [= <-]. constructor; [done|]. by apply IH.
Qed.

(** When every failure of [f] is a [KeyError], so is that of [mapM f], and
    it fails as soon as one element does. *)
Lemma mapM_result_KeyError {A B} (f : A → result B) (l : list A) x :
  (∀ y e, f y = Err e → e = KeyError) →
  x ∈ l → f x = Err KeyError → mapM f l = Err KeyError.
Proof.
  intros Hf Hx Hfx. induction l as [|y l IH]; [by apply elem_of_nil in Hx|].
  cbn [mapM]. destruct (f y) as [b|e] eqn:Hfy.
  - cbn [mbind result_bind]. apply elem_of_cons in Hx as [->|Hx]; [congruence|].
    by rewrite (IH Hx).
  - by rewrite (Hf y e Hfy).
Qed.

(** ** Unpacking a scale name *)

(** X1. [unpack_scale_name] raises [IndexError] exactly on the names that
    have no space.  On any other name it returns the dictionary of a tonic
    without a space and a quality, which joined by one space give the name
    back: the cut is at the first space, and further spaces stay in the
    quality. *)
Theorem unpack_scale_name_round_trip (scale : string) :
  match unpack_scale_name scale with
  | Ok unpacked =>
      Py.str_in " " scale = true
      ∧ ∃ tonic quality,
          unpacked = {[ "TONIC" := tonic; "QUALITY" := quality ]}
          ∧ scale = tonic +:+ " " +:+ quality
          ∧ Py.str_in " " tonic = false
  | Err e => e = IndexError ∧ Py.str_in " " scale = false
  end.
Proof.
  destruct (Py.cut_space scale) as [[t q]|] eqn:Hcut.
  - apply cut_space_Some in Hcut as [-> Hns].
    rewrite (unpack_scale_name_join t q Hns).
    split; [apply str_in_app|]. by exists t, q.
  - rewrite (unpack_scale_name_no_space scale Hcut).
    split; [done|]. by apply cut_space_None.
Qed.

(** ** Validation on any dictionary *)

(** X2. [validate_tonic] reads the entries QUALITY and TONIC of its argument
    and nothing else.  A dictionary without QUALITY, or with QUALITY and
    without TONIC, raises [KeyError]; otherwise the outcome is that of the
    two entries alone, and the lookups in [VALID_SCALE_NAMES] never miss. *)
Theorem validate_tonic_any_dictionary (d : gmap string string) :
  validate_tonic d
  = match d !! "QUALITY", d !! "TONIC" with
    | Some quality, Some tonic =>
        validate_tonic {[ "TONIC" := tonic; "QUALITY" := quality ]}
    | _, _ => Err KeyError
    end
  ∧ validate_tonic ∅ = Err KeyError
  ∧ (∀ quality, validate_tonic {[ "QUALITY" := quality ]} = Err KeyError)
  ∧ (∀ tonic, validate_tonic {[ "TONIC" := tonic ]} = Err KeyError)
  ∧ (∀ key value tonic quality,
       key ≠ "TONIC" → key ≠ "QUALITY" →
       validate_tonic (<[key:=value]> {[ "TONIC" := tonic; "QUALITY" := quality ]})
       = validate_tonic {[ "TONIC" := tonic; "QUALITY" := quality ]}).
Proof.
  assert (Hany : ∀ d' : gmap string string,
            validate_tonic d'
            = match d' !! "QUALITY", d' !! "TONIC" with
              | Some q, Some t =>
                  if Py.list_in t (legal_tonics q) then Ok ()
                  else Err (InvalidTonicError (invalid_tonic_message t))
              | _, _ => Err KeyError
              end).
  { intros d'. unfold validate_tonic.
    destruct (d' !! "QUALITY") as [q|] eqn:Hq;
      [rewrite (getitem_Some _ _ _ Hq)|by rewrite (getitem_None _ _ Hq)].
    cbn [mbind result_bind]. rewrite valid_tonics_getitem.
    cbn [mbind result_bind].
    destruct (d' !! "TONIC") as [t|] eqn:Ht;
      [rewrite (getitem_Some _ _ _ Ht)|by rewrite (getitem_None _ _ Ht)].
    cbn [mbind result_bind]. by destruct (Py.list_in t (legal_tonics q)). }
  split; [|split; [|split; [|split]]].
  - rewrite Hany. destruct (d !! "QUALITY") as [q|]; [|done].
    destruct (d !! "TONIC") as [t|]; [|done].
    by rewrite validate_tonic_unpacked.
  - by rewrite Hany.
  - intros quality. rewrite Hany, lookup_singleton_eq.
    by rewrite lookup_singleton_ne.
  - intros tonic. rewrite Hany. by rewrite lookup_singleton_ne.
  - intros key value tonic quality Hk1 Hk2. rewrite !Hany.
    rewrite !(lookup_insert_ne _ key) by done. done.
Qed.

(** ** The two key-signature registries *)

(** The keys of [KEY_SIGNATURE_NUMBERS] are the legal tonics, each followed
    by its mode. *)
Lemma key_signature_number_legal t mode n :
  mode = "MINOR" ∨ mode = "MAJOR" →
  KEY_SIGNATURE_NUMBERS !! (t +:+ " " +:+ mode) = Some n →
  t ∈ legal_tonics mode.
Proof.
  intros Hmode Hn. apply elem_of_list_to_map_2 in Hn.
  apply list_in_true.
  destruct Hmode as [-> | ->];
    repeat (apply elem_of_cons in Hn as [[= Hkey _]|Hn]);
    try (by apply elem_of_nil in Hn);
    pose proof (append_inv _ _ _ Hkey) as Ht; vm_compute in Ht; subst t;
    first [ by vm_compute | by vm_compute in Hkey ].
Qed.

Lemma qualified_tonic_mode t q :
  ∃ mode, (mode = "MINOR" ∨ mode = "MAJOR")
          ∧ Py.str_in "MINOR" mode = Py.str_in "MINOR" q
          ∧ t +:+ (if Py.str_in "MINOR" q then " MINOR" else " MAJOR")
            = t +:+ " " +:+ mode.
Proof.
  destruct (Py.str_in "MINOR" q);
    [exists "MINOR"|exists "MAJOR"]; (split; [auto|]); by split.
Qed.

(** The signature list of a number: sharps for a positive number, flats for
    a negative one, as many as its magnitude. *)
Lemma key_signatures_lookup n ks :
  KEY_SIGNATURES !! n = Some ks →
  -7 ≤ n ≤ 7
  ∧ ks = if 0 <=? n then take (Z.to_nat n) SHARPS
         else take (Z.to_nat (- n)) FLATS.
Proof.
  intros Hn. apply elem_of_list_to_map_2 in Hn.
  repeat (apply elem_of_cons in Hn as [[= -> ->]|Hn]);
    try (by apply elem_of_nil in Hn); by split.
Qed.

Lemma fetch_key_signature_Ok t q ks :
  fetch_key_signature t q = Ok ks →
  ∃ n, KEY_SIGNATURE_NUMBERS
         !! (t +:+ (if Py.str_in "MINOR" q then " MINOR" else " MAJOR"))
       = Some n
       ∧ KEY_SIGNATURES !! n = Some ks.
Proof.
  unfold fetch_key_signature.
  destruct (KEY_SIGNATURE_NUMBERS !! _) as [n|] eqn:Hn;
    [rewrite (getitem_Some _ _ _ Hn)|by rewrite (getitem_None _ _ Hn)].
  cbn [mbind result_bind].
  destruct (KEY_SIGNATURES !! n) as [ks'|] eqn:Hks;
    [rewrite (getitem_Some _ _ _ Hks)|by rewrite (getitem_None _ _ Hks)].
  intros [= <-]. by exists n.
Qed.

Lemma fetch_key_signature_Ok_legal t q ks :
  fetch_key_signature t q = Ok ks → t ∈ legal_tonics q.
Proof.
  intros (n & Hn & _)%fetch_key_signature_Ok.
  destruct (qualified_tonic_mode t q) as (mode & Hmode & Hin & Heq).
  rewrite Heq in Hn. pose proof (key_signature_number_legal t mode n Hmode Hn).
  unfold legal_tonics in *. by rewrite <- Hin.
Qed.

(** X3. The key-signature lookup and the validation have the same domain:
    [fetch_key_signature] returns a list exactly for the tonics that are
    legal for the quality, and raises [KeyError], nothing else, for every
    other tonic. *)
Theorem fetch_key_signature_domain (tonic quality : string) :
  (tonic ∈ legal_tonics quality →
     ∃ ks, fetch_key_signature tonic quality = Ok ks)
  ∧ (tonic ∉ legal_tonics quality →
       fetch_key_signature tonic quality = Err KeyError)
  ∧ is_ok (fetch_key_signature tonic quality)
    = is_ok (validate_tonic {[ "TONIC" := tonic; "QUALITY" := quality ]}).
Proof.
  assert (Hbad : tonic ∉ legal_tonics quality →
                 fetch_key_signature tonic quality = Err KeyError).
  { intros Hno. destruct (fetch_key_signature tonic quality) as [ks|e] eqn:Hf.
    - destruct Hno. by apply (fetch_key_signature_Ok_legal _ _ ks).
    - revert Hf. unfold fetch_key_signature.
      destruct (Py.getitem KEY_SIGNATURE_NUMBERS _) as [n|e1] eqn:H1.
      + cbn [mbind result_bind]. unfold Py.getitem.
        destruct (KEY_SIGNATURES !! n); by intros [= <-].
      + cbn [mbind result_bind]. revert H1. unfold Py.getitem.
        destruct (KEY_SIGNATURE_NUMBERS !! _); [done|].
        by intros [= <-] [= <-]. }
  split; [apply fetch_key_signature_legal|]. split; [exact Hbad|].
  rewrite validate_tonic_unpacked.
  destruct (Py.list_in tonic (legal_tonics quality)) eqn:Hin.
  - apply list_in_true in Hin.
    by destruct (fetch_key_signature_legal _ _ Hin) as [ks ->].
  - apply list_in_false in Hin. by rewrite (Hbad Hin).
Qed.

(** X4. A key signature is never mixed: the list [fetch_key_signature]
    returns is the first [k] sharps in the order F#, C#, G#, D#, A#, E#, B#
    or the first [k] flats in the order Bb, Eb, Ab, Db, Gb, Cb, Fb, with
    [k] at most seven, and [k] and the choice are the magnitude and the sign
    of the tonic's signature number. *)
Theorem key_signature_shape (tonic quality : string) (ks : list string) :
  fetch_key_signature tonic quality = Ok ks →
  ∃ n : Z,
    KEY_SIGNATURE_NUMBERS
      !! (tonic +:+ (if Py.str_in "MINOR" quality then " MINOR" else " MAJOR"))
    = Some n
    ∧ -7 ≤ n ≤ 7
    ∧ length ks = Z.abs_nat n
    ∧ ks = (if 0 <=? n then take (Z.abs_nat n) SHARPS
            else take (Z.abs_nat n) FLATS)
    ∧ SHARPS = ["F#"; "C#"; "G#"; "D#"; "A#"; "E#"; "B#"]
    ∧ FLATS = ["Bb"; "Eb"; "Ab"; "Db"; "Gb"; "Cb"; "Fb"].
Proof.
  intros (n & Hn & Hks)%fetch_key_signature_Ok.
  exists n. split; [exact Hn|].
  destruct (key_signatures_lookup n ks Hks) as [Hrange ->].
  split; [exact Hrange|].
  assert (Hlen : length SHARPS = 7%nat ∧ length FLATS = 7%nat) by done.
  destruct (0 <=? n) eqn:Hsign.
  - apply Z.leb_le in Hsign.
    replace (Z.abs_nat n) with (Z.to_nat n) by lia.
    repeat split; try done. rewrite length_take. lia.
  - apply Z.leb_gt in Hsign.
    replace (Z.abs_nat n) with (Z.to_nat (- n)) by lia.
    repeat split; try done. rewrite length_take. lia.
Qed.

Lemma key_signature_shape_witness :
  fetch_key_signature "Eb" "MAJOR" = Ok ["Bb"; "Eb"; "Ab"]
  ∧ ∃ n : Z,
      KEY_SIGNATURE_NUMBERS
        !! ("Eb" +:+ (if Py.str_in "MINOR" "MAJOR" then " MINOR" else " MAJOR"))
      = Some n
      ∧ -7 ≤ n ≤ 7
      ∧ length ["Bb"; "Eb"; "Ab"] = Z.abs_nat n
      ∧ ["Bb"; "Eb"; "Ab"]
        = (if 0 <=? n then take (Z.abs_nat n) SHARPS
           else take (Z.abs_nat n) FLATS)
      ∧ SHARPS = ["F#"; "C#"; "G#"; "D#"; "A#"; "E#"; "B#"]
      ∧ FLATS = ["Bb"; "Eb"; "Ab"; "Db"; "Gb"; "Cb"; "Fb"].
Proof.
  assert (Hf : fetch_key_signature "Eb" "MAJOR" = Ok ["Bb"; "Eb"; "Ab"])
    by (by vm_compute).
  split; [exact Hf|]. exact (key_signature_shape "Eb" "MAJOR" _ Hf).
Defined.

(** Within one mode, distinct legal tonics have distinct key signatures. *)
Lemma fetch_key_signature_major_inj t t' :
  t ∈ major_tonics → t' ∈ major_tonics →
  fetch_key_signature t "MAJOR" = fetch_key_signature t' "MAJOR" → t = t'.
Proof.
  intros Ht Ht'. tonic_cases Ht; tonic_cases Ht';
    intros Heq; vm_compute in Heq; first [ reflexivity | discriminate Heq ].
Qed.

Lemma fetch_key_signature_minor_inj t t' :
  t ∈ minor_tonics → t' ∈ minor_tonics →
  fetch_key_signature t "MINOR" = fetch_key_signature t' "MINOR" → t = t'.
Proof.
  intros Ht Ht'. tonic_cases Ht; tonic_cases Ht';
    intros Heq; vm_compute in Heq; first [ reflexivity | discriminate Heq ].
Qed.

(** X5. Within a mode the key signature determines the tonic: two legal
    tonics whose qualities agree on containing MINOR and whose key
    signatures are equal are the same tonic. *)
Theorem key_signature_determines_tonic (t t' q q' : string) :
  Py.str_in "MINOR" q = Py.str_in "MINOR" q' →
  t ∈ legal_tonics q → t' ∈ legal_tonics q' →
  fetch_key_signature t q = fetch_key_signature t' q' →
  t = t'.
Proof.
  intros Hqq Ht Ht' Heq.
  destruct (legal_tonics_cases t q Ht) as [[Hq Hl]|[Hq Hl]];
    destruct (legal_tonics_cases t' q' Ht') as [[Hq' Hl']|[Hq' Hl']];
    try congruence.
  - rewrite (fetch_key_signature_major t q Hq),
            (fetch_key_signature_major t' q' Hq') in Heq.
    by apply fetch_key_signature_major_inj.
  - rewrite (fetch_key_signature_minor t q Hq),
            (fetch_key_signature_minor t' q' Hq') in Heq.
    by apply fetch_key_signature_minor_inj.
Qed.

Lemma key_signature_determines_tonic_witness :
  Py.str_in "MINOR" "MELODIC MINOR" = Py.str_in "MINOR" "NATURAL MINOR"
  ∧ fetch_key_signature "C#" "MELODIC MINOR"
    = fetch_key_signature "C#" "NATURAL MINOR"
  ∧ "C#" = "C#".
Proof.
  assert (Hq : Py.str_in "MINOR" "MELODIC MINOR"
               = Py.str_in "MINOR" "NATURAL MINOR") by (by vm_compute).
  assert (Heq : fetch_key_signature "C#" "MELODIC MINOR"
                = fetch_key_signature "C#" "NATURAL MINOR") by (by vm_compute).
  assert (Ht : "C#" ∈ legal_tonics "MELODIC MINOR")
    by (apply list_in_true; by vm_compute).
  assert (Ht' : "C#" ∈ legal_tonics "NATURAL MINOR")
    by (apply list_in_true; by vm_compute).
  split; [exact Hq|]. split; [exact Heq|].
  exact (key_signature_determines_tonic _ _ _ _ Hq Ht Ht' Heq).
Defined.

(** X6. Every key signature of a legal major tonic is the key signature of
    exactly one legal minor tonic, and every key signature of a legal minor
    tonic is that of exactly one legal major tonic: the relative keys. *)
Theorem relative_keys :
  (∀ t, t ∈ major_tonics →
     ∃ r, r ∈ minor_tonics
          ∧ fetch_key_signature r "MINOR" = fetch_key_signature t "MAJOR"
          ∧ ∀ r', r' ∈ minor_tonics →
              fetch_key_signature r' "MINOR" = fetch_key_signature t "MAJOR" →
              r' = r)
  ∧ (∀ r, r ∈ minor_tonics →
       ∃ t, t ∈ major_tonics
            ∧ fetch_key_signature t "MAJOR" = fetch_key_signature r "MINOR"
            ∧ ∀ t', t' ∈ major_tonics →
                fetch_key_signature t' "MAJOR" = fetch_key_signature r "MINOR" →
                t' = t)
  ∧ fetch_key_signature "A" "MINOR" = fetch_key_signature "C" "MAJOR"
  ∧ fetch_key_signature "A#" "MINOR" = fetch_key_signature "C#" "MAJOR"
  ∧ fetch_key_signature "Ab" "MINOR" = fetch_key_signature "Cb" "MAJOR".
Proof.
  assert (Hrel : ∀ t, t ∈ major_tonics →
            ∃ r, r ∈ minor_tonics
                 ∧ fetch_key_signature r "MINOR" = fetch_key_signature t "MAJOR").
  { intros t Ht.
    tonic_cases Ht;
      [ exists "F#" | exists "G#" | exists "A" | exists "B" | exists "C#"
      | exists "D" | exists "E" | exists "A#" | exists "D#" | exists "F"
      | exists "G" | exists "Ab" | exists "Bb" | exists "C" | exists "Eb" ];
      (split; [apply list_in_true|]; by vm_compute). }
  assert (Hrel' : ∀ r, r ∈ minor_tonics →
            ∃ t, t ∈ major_tonics
                 ∧ fetch_key_signature t "MAJOR" = fetch_key_signature r "MINOR").
  { intros r Hr.
    tonic_cases Hr;
      [ exists "C" | exists "D" | exists "Eb" | exists "F" | exists "G"
      | exists "Ab" | exists "Bb" | exists "C#" | exists "F#" | exists "B"
      | exists "E" | exists "A" | exists "Cb" | exists "Gb" | exists "Db" ];
      (split; [apply list_in_true|]; by vm_compute). }
  split; [|split; [|by vm_compute]].
  - intros t Ht. destruct (Hrel t Ht) as (r & Hr & Heq).
    exists r. split; [done|]. split; [done|]. intros r' Hr' Heq'.
    apply fetch_key_signature_minor_inj; [done|done|congruence].
  - intros r Hr. destruct (Hrel' r Hr) as (t & Ht & Heq).
    exists t. split; [done|]. split; [done|]. intros t' Ht' Heq'.
    apply fetch_key_signature_major_inj; [done|done|congruence].
Qed.

(** ** More on building the notes *)

Section build_more.

Context {Interval : Type} `{Countable Interval}.
Variable SCALE_INTERVALS : gmap string (list Interval).
Variable INTERVAL_NOTE_PAIRS : gmap string (gmap Interval string).

Local Abbreviation build :=
  (build_scale SCALE_INTERVALS INTERVAL_NOTE_PAIRS).

Local Abbreviation resolve tonic :=
  (fun interval : Interval =>
     Py.getitem INTERVAL_NOTE_PAIRS tonic ≫= fun row => Py.getitem row interval).

Lemma resolve_KeyError_only tonic interval e :
  resolve tonic interval = Err e → e = KeyError.
Proof.
  unfold Py.getitem. destruct (INTERVAL_NOTE_PAIRS !! tonic) as [row|];
    cbn [mbind result_bind]; [|by intros [= <-]].
  destruct (row !! interval); [done|by intros [= <-]].
Qed.

Lemma resolve_Ok tonic interval name :
  resolve tonic interval = Ok name →
  ∃ row, INTERVAL_NOTE_PAIRS !! tonic = Some row ∧ row !! interval = Some name.
Proof.
  unfold Py.getitem. destruct (INTERVAL_NOTE_PAIRS !! tonic) as [row|];
    cbn [mbind result_bind]; [|done].
  destruct (row !! interval) as [name'|] eqn:Hrow; [|done].
  intros [= <-]. by exists row.
Qed.

(** X7. The notes [build_scale] returns follow the quality's pattern, in
    its order and one for one: there are as many notes as intervals, and the
    note at each position is the Note of the name the tonic's row gives for
    the interval at that position. *)
Theorem build_scale_pointwise (tonic quality : string) (notes : list Note) :
  build tonic quality = Ok notes →
  ∃ pattern,
    SCALE_INTERVALS !! quality = Some pattern
    ∧ length notes = length pattern
    ∧ ∀ i interval, pattern !! i = Some interval →
        ∃ row name note,
          INTERVAL_NOTE_PAIRS !! tonic = Some row
          ∧ row !! interval = Some name
          ∧ Note_new name = Ok note
          ∧ notes !! i = Some note.
Proof.
  intros Hb. destruct (build_scale_length _ _ _ _ _ Hb) as (pattern & Hq & Hlen).
  exists pattern. split; [done|]. split; [done|].
  revert Hb. unfold build_scale. rewrite (getitem_Some _ _ _ Hq).
  cbn [mbind result_bind].
  destruct (mapM _ pattern) as [names|e] eqn:Hnames;
    cbn [mbind result_bind]; [|done].
  intros Hnotes%mapM_result_Forall2. apply mapM_result_Forall2 in Hnames.
  intros i interval Hi.
  destruct (Forall2_lookup_l _ _ _ _ _ Hnames Hi) as (name & Hname & Hres).
  destruct (Forall2_lookup_l _ _ _ _ _ Hnotes Hname) as (note & Hnote & Hnew).
  destruct (resolve_Ok _ _ _ Hres) as (row & Hrow & Hlook).
  by exists row, name, note.
Qed.

(** X8. A tonic or an interval the note table lacks makes [build_scale]
    raise [KeyError], whatever [Note] would say of the other names: all
    names are looked up before any Note is built.  The one exception is a
    quality with an empty pattern, for which no lookup is made and the
    result is the empty tuple even for an unknown tonic. *)
Theorem build_scale_missing_entry (tonic quality : string)
    (pattern : list Interval) :
  SCALE_INTERVALS !! quality = Some pattern →
  (INTERVAL_NOTE_PAIRS !! tonic = None →
     build tonic quality
     = match pattern with [] => Ok [] | _ :: _ => Err KeyError end)
  ∧ (∀ row interval,
       INTERVAL_NOTE_PAIRS !! tonic = Some row →
       interval ∈ pattern → row !! interval = None →
       build tonic quality = Err KeyError).
Proof.
  intros Hq. unfold build_scale. rewrite (getitem_Some _ _ _ Hq).
  cbn [mbind result_bind]. split.
  - intros Ht. destruct pattern as [|interval pattern]; [done|].
    cbn [mapM]. by rewrite (getitem_None _ _ Ht).
  - intros row interval Hrow Hin Hmiss.
    rewrite (mapM_result_KeyError _ pattern interval); [done| |done|].
    + intros y e. apply resolve_KeyError_only.
    + rewrite (getitem_Some _ _ _ Hrow). cbn [mbind result_bind].
      by rewrite (getitem_None _ _ Hmiss).
Qed.

End build_more.

Lemma build_scale_pointwise_witness :
  let notes :=
    [mkNote LB Flat; mkNote LC Natural; mkNote LD Flat; mkNote LE Flat;
     mkNote LF Natural; mkNote LG Flat; mkNote LA Flat] in
  build_scale Reference.SCALE_INTERVALS Reference.INTERVAL_NOTE_PAIRS
    "Bb" "NATURAL MINOR" = Ok notes
  ∧ ∃ pattern,
      Reference.SCALE_INTERVALS !! "NATURAL MINOR" = Some pattern
      ∧ length notes = length pattern
      ∧ ∀ i interval, pattern !! i = Some interval →
          ∃ row name note,
            Reference.INTERVAL_NOTE_PAIRS !! "Bb" = Some row
            ∧ row !! interval = Some name
            ∧ Note_new name = Ok note
            ∧ notes !! i = Some note.
Proof.
  intros notes.
  assert (Hb : build_scale Reference.SCALE_INTERVALS
                 Reference.INTERVAL_NOTE_PAIRS "Bb" "NATURAL MINOR" = Ok notes)
    by (by vm_compute).
  split; [exact Hb|]. exact (build_scale_pointwise _ _ _ _ _ Hb).
Defined.

Lemma build_scale_missing_entry_witness :
  Reference.SCALE_INTERVALS !! "MAJOR"
  = Some ["PERFECT 1"; "MAJOR 2"; "MAJOR 3"; "PERFECT 4";
          "PERFECT 5"; "MAJOR 6"; "MAJOR 7"]
  ∧ Reference.INTERVAL_NOTE_PAIRS !! "H" = None
  ∧ build_scale Reference.SCALE_INTERVALS Reference.INTERVAL_NOTE_PAIRS
      "H" "MAJOR" = Err KeyError.
Proof.
  assert (Hq : Reference.SCALE_INTERVALS !! "MAJOR"
               = Some ["PERFECT 1"; "MAJOR 2"; "MAJOR 3"; "PERFECT 4";
                       "PERFECT 5"; "MAJOR 6"; "MAJOR 7"]) by (by vm_compute).
  assert (Ht : Reference.INTERVAL_NOTE_PAIRS !! "H" = None) by (by vm_compute).
  split; [exact Hq|]. split; [exact Ht|].
  exact (proj1 (build_scale_missing_entry _ Reference.INTERVAL_NOTE_PAIRS
                  "H" "MAJOR" _ Hq) Ht).
Defined.

(** ** More on degrees *)

(** [__getitem__], case by case. *)
Lemma Scale__getitem__cases degree self :
  Scale__getitem__ degree self
  = match _quality self with
    | None => (self, Err (AttributeError "_quality"))
    | Some quality =>
        if String.eqb quality "MAJOR" || Py.str_in "MINOR" quality then
          match degree_names !! degree with
          | None =>
              (self, Err (InvalidDegreeError
                            ("Invalid degree name: " +:+ degree)))
          | Some i =>
              match _notes self with
              | None => (self, Err (AttributeError "_notes"))
              | Some notes => (self, Py.index notes i)
              end
          end
        else (self, Err (InvalidDegreeError
                           "Only major and minor scales are subscriptable"))
    end.
Proof.
  cbv beta iota delta [Scale__getitem__ mbind method_bind getattr].
  destruct (_quality self) as [quality|]; [|done]. rewrite <- negb_orb.
  destruct (String.eqb quality "MAJOR" || Py.str_in "MINOR" quality);
    cbn [negb]; [|done].
  cbv beta iota delta [try_except_KeyError mbind method_bind call getattr
                       raise Py.getitem].
  destruct (degree_names !! degree) as [i|]; [|done].
  destruct (_notes self) as [notes|]; [|done].
  pose proof (index_not_KeyError notes i) as Hi.
  by destruct (Py.index notes i) as [n|[]].
Qed.

Lemma degree_names_bound degree i :
  degree_names !! degree = Some i → (i < 7)%nat.
Proof.
  intros Hd. apply elem_of_list_to_map_2 in Hd.
  repeat (apply elem_of_cons in Hd as [[= -> ->]|Hd]); try lia.
  by apply elem_of_nil in Hd.
Qed.

(** X9. The handler of [__getitem__] catches [KeyError] only.  On a scale of
    a major or minor quality with fewer notes than a recognised degree's
    index asks for, the lookup raises [IndexError] and not
    [InvalidDegreeError]; with seven notes or more no recognised degree does. *)
Theorem degree_beyond_notes (self : Scale) (quality : string)
    (notes : list Note) (degree : string) (i : nat) :
  _quality self = Some quality →
  _notes self = Some notes →
  String.eqb quality "MAJOR" || Py.str_in "MINOR" quality = true →
  degree_names !! degree = Some i →
  ((length notes ≤ i)%nat →
     Scale__getitem__ degree self = (self, Err IndexError))
  ∧ ((7 ≤ length notes)%nat →
       ∃ note, notes !! i = Some note
               ∧ Scale__getitem__ degree self = (self, Ok note)).
Proof.
  intros Hq Hn Hs Hd. rewrite Scale__getitem__cases, Hq, Hs, Hd, Hn.
  unfold Py.index. split.
  - intros Hshort. by rewrite (proj2 (lookup_ge_None notes i) Hshort).
  - intros Hlong. pose proof (degree_names_bound _ _ Hd) as Hi.
    destruct (lookup_lt_is_Some_2 notes i) as [note Hnote]; [lia|].
    exists note. by rewrite Hnote.
Qed.

Lemma degree_beyond_notes_witness :
  let self :=
    Scale_built "A" "MINOR PENTATONIC"
      [mkNote LA Natural; mkNote LC Natural; mkNote LD Natural;
       mkNote LE Natural; mkNote LG Natural] [] in
  Scale_new pentatonic_SCALE_INTERVALS Reference.INTERVAL_NOTE_PAIRS
    "A MINOR PENTATONIC" = Ok self
  ∧ Scale__getitem__ "SUBMEDIANT" self = (self, Err IndexError)
  ∧ Scale__getitem__ "DOMINANT" self = (self, Ok (mkNote LG Natural)).
Proof.
  intros self. split; [by vm_compute|]. split; [|by vm_compute].
  assert (Hs : String.eqb "MINOR PENTATONIC" "MAJOR"
               || Py.str_in "MINOR" "MINOR PENTATONIC" = true)
    by (by vm_compute).
  assert (Hd : degree_names !! "SUBMEDIANT" = Some 5%nat) by (by vm_compute).
  apply (proj1 (degree_beyond_notes self "MINOR PENTATONIC" _ "SUBMEDIANT" 5
                  eq_refl eq_refl Hs Hd)).
  cbn [length]. lia.
Defined.

(** X10. The three read methods agree.  A note [__getitem__] returns for a
    degree is contained in the scale, the instance is left as it was, and the
    name [ascend()] lists at the degree's index is that note's qualified
    name. *)
Theorem degree_note_is_contained (self self' : Scale) (degree : string)
    (note : Note) :
  Scale__getitem__ degree self = (self', Ok note) →
  self' = self
  ∧ Scale__contains__ note self = (self, Ok true)
  ∧ ∃ i names,
      degree_names !! degree = Some i
      ∧ ascend self = (self, Ok names)
      ∧ names !! i = Some (qualified_name note).
Proof.
  rewrite Scale__getitem__cases.
  destruct (_quality self) as [quality|]; [|done].
  destruct (String.eqb quality "MAJOR" || Py.str_in "MINOR" quality); [|done].
  destruct (degree_names !! degree) as [i|]; [|done].
  destruct (_notes self) as [notes|] eqn:Hn; [|done].
  unfold Py.index. destruct (notes !! i) as [n|] eqn:Hi; [|done].
  intros [= <- <-]. split; [done|]. split.
  - rewrite (contains_notes _ _ _ Hn). do 2 f_equal.
    apply existsb_exists. exists n. split.
    + apply list_elem_of_In, list_elem_of_lookup. eauto.
    + by apply Note_eq_true.
  - exists i, (qualified_name <$> notes). split; [done|].
    split; [by apply ascend_notes|]. by rewrite list_lookup_fmap, Hi.
Qed.

Lemma degree_note_is_contained_witness :
  let self :=
    Scale_built "E" "HARMONIC MINOR"
      [mkNote LE Natural; mkNote LF Sharp; mkNote LG Natural;
       mkNote LA Natural; mkNote LB Natural; mkNote LC Natural;
       mkNote LD Sharp] ["F#"] in
  Reference.Scale "E HARMONIC MINOR" = Ok self
  ∧ Scale__getitem__ "LEADING TONE" self = (self, Ok (mkNote LD Sharp))
  ∧ Scale__contains__ (mkNote LD Sharp) self = (self, Ok true).
Proof.
  intros self.
  assert (Hget : Scale__getitem__ "LEADING TONE" self
                 = (self, Ok (mkNote LD Sharp))) by (by vm_compute).
  split; [by vm_compute|]. split; [exact Hget|].
  exact (proj1 (proj2 (degree_note_is_contained _ _ _ _ Hget))).
Defined.

(** ** Initialising an instance again *)

Lemma Note_new_name name n : Note_new name = Ok n → qualified_name n = name.
Proof.
  destruct name as [|c rest]; [done|]. cbn [Note_new].
  destruct (parse_letter c) as [l|] eqn:Hl; [|done].
  destruct (parse_accidental rest) as [a|] eqn:Ha; [|done].
  intros [= <-]. unfold qualified_name. cbn [letter accidental].
  apply List.find_some in Hl as [_ Hl%Ascii.eqb_eq].
  apply List.find_some in Ha as [_ Ha%String.eqb_eq]. by rewrite Hl, Ha.
Qed.

Lemma Scale_overlay_blank old : Scale_overlay Scale_blank old = old.
Proof. by destruct old. Qed.

Lemma scale_name_inj t q t' q' :
  scale_name t q = scale_name t' q' →
  Py.str_in " " t = false → Py.str_in " " t' = false →
  t = t' ∧ q = q'.
Proof.
  intros Heq Ht Ht'.
  pose proof (cut_space_join t q Ht) as Hcut.
  rewrite Heq, (cut_space_join t' q' Ht') in Hcut. by injection Hcut.
Qed.

Section again.

Context {Interval : Type} `{Countable Interval}.
Variable SCALE_INTERVALS : gmap string (list Interval).
Variable INTERVAL_NOTE_PAIRS : gmap string (gmap Interval string).

Local Abbreviation build :=
  (build_scale SCALE_INTERVALS INTERVAL_NOTE_PAIRS).
Local Abbreviation init :=
  (Scale__init__ SCALE_INTERVALS INTERVAL_NOTE_PAIRS).
Local Abbreviation new :=
  (Scale_new SCALE_INTERVALS INTERVAL_NOTE_PAIRS).

(** [__init__] on a name with a space, from any instance. *)
Lemma Scale__init__join_on old t q :
  Py.str_in " " t = false →
  init (scale_name t q) old
  = if Py.list_in t (legal_tonics q) then
      match build t q with
      | Err e =>
          (mkScale (Some t) (Some q) (_notes old) (key_signature old), Err e)
      | Ok ns =>
          match fetch_key_signature t q with
          | Err e => (mkScale (Some t) (Some q) (Some ns) (key_signature old),
                      Err e)
          | Ok ks => (Scale_built t q ns ks, Ok ())
          end
      end
    else (old, Err (InvalidTonicError (invalid_tonic_message t))).
Proof.
  intros Hns.
  cbv beta iota delta [Scale__init__ mbind method_bind call].
  rewrite (unpack_scale_name_join t q Hns), validate_tonic_unpacked.
  destruct (Py.list_in t (legal_tonics q)); [|done].
  rewrite unpacked_TONIC, unpacked_QUALITY.
  cbv beta iota delta [set_tonic set_quality set_notes set_key_signature
                       getattr _tonic _quality _notes key_signature].
  destruct (build t q) as [ns|e]; [|done].
  by destruct (fetch_key_signature t q).
Qed.

(** X11. [__init__] run on an instance that already has attributes does what
    it does on a blank one and overwrites only what it assigns.  A run that
    returns leaves the instance it would have built from blank.  A run that
    fails in validation leaves the instance untouched; a run that fails in
    [build_scale] leaves it with the new tonic and quality and the notes and
    key signature it had before. *)
Theorem initialising_again (name : string) (old : Scale) :
  ∃ run outcome,
    init name Scale_blank = (run, outcome)
    ∧ init name old = (Scale_overlay run old, outcome)
    ∧ (is_ok outcome = true → Scale_overlay run old = run)
    ∧ (∀ tonic quality,
         name = scale_name tonic quality → Py.str_in " " tonic = false →
         tonic ∉ legal_tonics quality →
         outcome = Err (InvalidTonicError (invalid_tonic_message tonic))
         ∧ Scale_overlay run old = old)
    ∧ (∀ tonic quality e,
         name = scale_name tonic quality → Py.str_in " " tonic = false →
         tonic ∈ legal_tonics quality → build tonic quality = Err e →
         outcome = Err e
         ∧ Scale_overlay run old
           = mkScale (Some tonic) (Some quality) (_notes old)
               (key_signature old)).
Proof.
  destruct (scale_name_cases name) as [Hs|(t & q & -> & Hns)].
  - exists Scale_blank, (Err IndexError).
    split; [by apply Scale__init__no_space|]. rewrite Scale_overlay_blank.
    split.
    { cbv beta iota delta [Scale__init__ mbind method_bind call].
      by rewrite (unpack_scale_name_no_space name Hs). }
    split; [done|]. split.
    + intros tonic quality -> Hns' _.
      by rewrite (cut_space_join _ _ Hns') in Hs.
    + intros tonic quality e -> Hns' _ _.
      by rewrite (cut_space_join _ _ Hns') in Hs.
  - rewrite (Scale__init__join _ _ t q Hns), (Scale__init__join_on old t q Hns).
    destruct (Py.list_in t (legal_tonics q)) eqn:Ht.
    + assert (Hlegal : ∀ tonic quality,
                scale_name t q = scale_name tonic quality →
                Py.str_in " " tonic = false →
                tonic ∈ legal_tonics quality).
      { intros tonic quality Heq Hns'.
        destruct (scale_name_inj _ _ _ _ Heq Hns Hns') as [<- <-].
        by apply list_in_true. }
      destruct (build t q) as [ns|e] eqn:Hb.
      * destruct (fetch_key_signature_legal t q (proj1 (list_in_true _ _) Ht))
          as [ks Hks]. rewrite Hks.
        exists (Scale_built t q ns ks), (Ok ()).
        split; [done|]. split; [done|]. split; [done|]. split.
        -- intros tonic quality Heq Hns' Hno.
           destruct Hno. by apply Hlegal.
        -- intros tonic quality e Heq Hns' _ Hb'.
           destruct (scale_name_inj _ _ _ _ Heq Hns Hns') as [<- <-].
           congruence.
      * exists (Scale_named t q), (Err e).
        split; [done|]. split; [done|]. split; [done|]. split.
        -- intros tonic quality Heq Hns' Hno.
           destruct Hno. by apply Hlegal.
        -- intros tonic quality e' Heq Hns' _ Hb'.
           destruct (scale_name_inj _ _ _ _ Heq Hns Hns') as [<- <-].
           split; [congruence|done].
    + exists Scale_blank, (Err (InvalidTonicError (invalid_tonic_message t))).
      rewrite Scale_overlay_blank.
      split; [done|]. split; [done|]. split; [done|]. split.
      * intros tonic quality Heq Hns' _.
        by destruct (scale_name_inj _ _ _ _ Heq Hns Hns') as [<- <-].
      * intros tonic quality e Heq Hns' Hlegal _.
        destruct (scale_name_inj _ _ _ _ Heq Hns Hns') as [<- <-].
        apply list_in_true in Hlegal. congruence.
Qed.

End again.

Example initialising_again_on_C_major :
  ∃ old,
    Reference.Scale "C MAJOR" = Ok old
    ∧ Scale__init__ Reference.SCALE_INTERVALS Reference.INTERVAL_NOTE_PAIRS
        "D FOO" old
      = (mkScale (Some "D") (Some "FOO") (_notes old) (key_signature old),
         Err KeyError)
    ∧ Scale__init__ Reference.SCALE_INTERVALS Reference.INTERVAL_NOTE_PAIRS
        "G# MAJOR" old
      = (old, Err (InvalidTonicError (invalid_tonic_message "G#"))).
Proof. eexists. split; [by vm_compute|]. split; by vm_compute. Qed.

(** ** Degrees of the legal scales *)

(** X12. Over tables that resolve the legal tonics, on the Scale of a legal
    tonic and quality each of the seven degree names returns a note, the
    TONIC degree is the Note of the tonic, and the first name [ascend()]
    lists is the tonic as it was written in the scale name. *)
Theorem legal_scale_degrees `{Countable Interval}
    (SCALE_INTERVALS : gmap string (list Interval))
    (INTERVAL_NOTE_PAIRS : gmap string (gmap Interval string))
    (tonic quality : string) :
  tables_cover SCALE_INTERVALS INTERVAL_NOTE_PAIRS = true →
  (quality = "MAJOR" ∧ tonic ∈ major_tonics)
  ∨ (quality ∈ minor_qualities ∧ tonic ∈ minor_tonics) →
  ∃ self,
    Scale_new SCALE_INTERVALS INTERVAL_NOTE_PAIRS (scale_name tonic quality)
    = Ok self
    ∧ (∀ degree i, degree_names !! degree = Some i →
         ∃ note, Scale__getitem__ degree self = (self, Ok note))
    ∧ (∃ first, Scale__getitem__ "TONIC" self = (self, Ok first)
                ∧ Note_new tonic = Ok first)
    ∧ (∃ names, ascend self = (self, Ok names) ∧ head names = Some tonic).
Proof.
  intros Hcover Hlegal.
  assert (Hs : String.eqb quality "MAJOR" || Py.str_in "MINOR" quality = true).
  { destruct Hlegal as [[-> _]|[Hq _]]; [by vm_compute|].
    unfold minor_qualities in Hq.
    repeat (apply elem_of_cons in Hq as [->|Hq]); try by vm_compute.
    by apply elem_of_nil in Hq. }
  destruct (tables_cover_resolves _ _ _ _ Hcover Hlegal) as [Hres Ht].
  destruct (build_scale_resolves _ _ _ _ Hres)
    as (ns & n0 & Hb & Hlen & H0 & Hn0).
  destruct (fetch_key_signature_legal _ _ Ht) as [ks Hks].
  exists (Scale_built tonic quality ns ks).
  split.
  { rewrite (Scale_new_join _ _ _ _ (legal_tonic_no_space _ _ Ht)).
    rewrite (proj2 (list_in_true _ _) Ht), Hb. cbn [mbind result_bind].
    by rewrite Hks. }
  assert (Hget : ∀ degree i, degree_names !! degree = Some i →
            Scale__getitem__ degree (Scale_built tonic quality ns ks)
            = (Scale_built tonic quality ns ks, Py.index ns i)).
  { intros degree i Hd. rewrite Scale__getitem__cases.
    cbn [Scale_built _quality _notes]. by rewrite Hs, Hd. }
  split; [|split].
  - intros degree i Hd. rewrite (Hget degree i Hd).
    pose proof (degree_names_bound _ _ Hd) as Hi.
    destruct (lookup_lt_is_Some_2 ns i) as [note Hnote]; [lia|].
    exists note. unfold Py.index. by rewrite Hnote.
  - exists n0. split; [|done].
    rewrite (Hget "TONIC" 0%nat) by (by vm_compute).
    unfold Py.index. by rewrite H0.
  - exists (qualified_name <$> ns). split; [by apply ascend_notes|].
    destruct ns as [|n ns']; [done|]. injection H0 as ->.
    cbn [fmap list_fmap head]. by rewrite (Note_new_name _ _ Hn0).
Qed.

Lemma legal_scale_degrees_witness :
  tables_cover Reference.SCALE_INTERVALS Reference.INTERVAL_NOTE_PAIRS = true
  ∧ ("MELODIC MINOR" ∈ minor_qualities ∧ "Eb" ∈ minor_tonics)
  ∧ ∃ self,
      Reference.Scale "Eb MELODIC MINOR" = Ok self
      ∧ Scale__getitem__ "TONIC" self = (self, Ok (mkNote LE Flat))
      ∧ ∃ names, ascend self = (self, Ok names) ∧ head names = Some "Eb".
Proof.
  assert (Hq : "MELODIC MINOR" ∈ minor_qualities ∧ "Eb" ∈ minor_tonics).
  { split; apply list_in_true; by vm_compute. }
  split; [exact reference_tables_cover|]. split; [exact Hq|].
  destruct (legal_scale_degrees Reference.SCALE_INTERVALS
              Reference.INTERVAL_NOTE_PAIRS "Eb" "MELODIC MINOR"
              reference_tables_cover (or_intror Hq))
    as (self & Hnew & _ & (first & Hfirst & Hnote) & Hnames).
  exists self. split; [exact Hnew|]. split; [|exact Hnames].
  assert (Hc : Note_new "Eb" = Ok (mkNote LE Flat)) by reflexivity.
  rewrite Hnote in Hc. by injection Hc as <-.
Defined.

(** ** Consistency of the registries *)

(** X13. Parallel keys: whenever a tonic has both a major and a minor entry
    in [KEY_SIGNATURE_NUMBERS], the minor number is the major number less
    three (three more flats, or three fewer sharps). *)
Theorem parallel_keys (tonic : string) (major minor : Z) :
  KEY_SIGNATURE_NUMBERS !! (tonic +:+ " MAJOR") = Some major →
  KEY_SIGNATURE_NUMBERS !! (tonic +:+ " MINOR") = Some minor →
  minor = major - 3.
Proof.
  intros Hmaj Hmin.
  pose proof (key_signature_number_legal tonic "MAJOR" major
                (or_intror eq_refl) Hmaj) as Ht.
  change (legal_tonics "MAJOR") with major_tonics in Ht.
  tonic_cases Ht; vm_compute in Hmaj; vm_compute in Hmin;
    first [ discriminate Hmin
          | injection Hmaj as <-; injection Hmin as <-; reflexivity ].
Qed.

Lemma parallel_keys_witness :
  KEY_SIGNATURE_NUMBERS !! ("F#" +:+ " MAJOR") = Some 6
  ∧ KEY_SIGNATURE_NUMBERS !! ("F#" +:+ " MINOR") = Some 3
  ∧ 3 = 6 - 3.
Proof.
  assert (Hmaj : KEY_SIGNATURE_NUMBERS !! ("F#" +:+ " MAJOR") = Some 6)
    by (by vm_compute).
  assert (Hmin : KEY_SIGNATURE_NUMBERS !! ("F#" +:+ " MINOR") = Some 3)
    by (by vm_compute).
  split; [exact Hmaj|]. split; [exact Hmin|].
  exact (parallel_keys "F#" 6 3 Hmaj Hmin).
Defined.

(** ** The registries against the reference tables *)

Lemma list_in_incl (l1 l2 : list string) :
  forallb (fun x => Py.list_in x l2) l1 = true → ∀ x, x ∈ l1 → x ∈ l2.
Proof.
  rewrite forallb_forall. intros Hall x Hx.
  by apply list_in_true, Hall, list_elem_of_In.
Qed.

(** X14. The legal-tonic lists are the tonics that need no double
    accidental.  Among the 21 tonic names made of a letter and at most one
    sharp or flat, which include every legal tonic, a tonic is in the major
    list exactly when its major scale over the reference tables has no
    double sharp or double flat, and in the minor list exactly when its
    natural minor scale has none.  G# under MAJOR is one that has. *)
Theorem legal_tonics_avoid_double_accidentals :
  Forall (fun tonic =>
            Py.list_in tonic major_tonics = plainly_spelled tonic "MAJOR"
            ∧ Py.list_in tonic minor_tonics
              = plainly_spelled tonic "NATURAL MINOR")
         Reference.tonic_names
  ∧ length Reference.tonic_names = 21%nat
  ∧ (∀ tonic, tonic ∈ major_tonics ∨ tonic ∈ minor_tonics →
              tonic ∈ Reference.tonic_names)
  ∧ validate_tonic {[ "TONIC" := "G#"; "QUALITY" := "MAJOR" ]}
    = Err (InvalidTonicError (invalid_tonic_message "G#"))
  ∧ (build_scale Reference.SCALE_INTERVALS Reference.INTERVAL_NOTE_PAIRS
       "G#" "MAJOR" ≫= fun notes => Py.index notes 6)
    = Ok (mkNote LF DoubleSharp).
Proof.
  split; [|split; [by vm_compute|split; [|split; by vm_compute]]].
  - apply Forall_forall. intros tonic Ht.
    assert (Hall : forallb
              (fun t => Bool.eqb (Py.list_in t major_tonics)
                                 (plainly_spelled t "MAJOR")
                        && Bool.eqb (Py.list_in t minor_tonics)
                                    (plainly_spelled t "NATURAL MINOR"))
              Reference.tonic_names = true) by (by vm_compute).
    rewrite forallb_forall in Hall.
    specialize (Hall tonic (proj1 (list_elem_of_In _ _) Ht)).
    apply andb_true_iff in Hall as [H1 H2].
    split; by apply Bool.eqb_prop.
  - intros tonic [Ht|Ht]; tonic_cases Ht; apply list_in_true; by vm_compute.
Qed.

(** X15. The key signature is the set of altered notes of the scale.  For
    every legal major tonic under MAJOR and every legal minor tonic under
    NATURAL MINOR, the names in the key signature the constructor stores are
    exactly the names of the notes of the scale, built over the reference
    tables, that carry an accidental, and as many. *)
Theorem key_signature_is_altered_notes (tonic quality : string) :
  (quality = "MAJOR" ∧ tonic ∈ major_tonics)
  ∨ (quality = "NATURAL MINOR" ∧ tonic ∈ minor_tonics) →
  ∃ self notes ks,
    Reference.Scale (scale_name tonic quality) = Ok self
    ∧ _notes self = Some notes
    ∧ key_signature self = Some ks
    ∧ length ks = length (altered_names notes)
    ∧ ∀ name, name ∈ ks ↔ name ∈ altered_names notes.
Proof.
  intros [[-> Ht]|[-> Ht]]; tonic_cases Ht;
    (eexists _, _, _; split; [by vm_compute|];
     split; [reflexivity|]; split; [reflexivity|];
     split; [by vm_compute|];
     intros name; split; apply list_in_incl; by vm_compute).
Qed.

Lemma key_signature_is_altered_notes_witness :
  ("MAJOR" = "MAJOR" ∧ "E" ∈ major_tonics)
  ∧ ∃ self notes ks,
      Reference.Scale (scale_name "E" "MAJOR") = Ok self
      ∧ _notes self = Some notes
      ∧ key_signature self = Some ks
      ∧ length ks = length (altered_names notes)
      ∧ ∀ name, name ∈ ks ↔ name ∈ altered_names notes.
Proof.
  assert (Ht : "MAJOR" = "MAJOR" ∧ "E" ∈ major_tonics).
  { split; [done|]. apply list_in_true. by vm_compute. }
  split; [exact Ht|].
  exact (key_signature_is_altered_notes "E" "MAJOR" (or_introl Ht)).
Defined.
